(** * yoto-js: the request pipeline, the auth providers and the webhook verifier

    A shallow embedding of [src/http-client.ts], [src/auth-provider.ts],
    [src/auth.ts] (decodeJWT, isTokenExpired, refreshAccessToken),
    [src/error.ts] and [src/webhooks.ts], followed by the properties that the
    specification states about them.  The embedding then goes on to the
    request headers, the device flow and the PKCE helpers of [src/auth.ts],
    the constructor of [src/yoto.ts] and [src/resources/family.ts], with
    further properties of the code.

    Conventions.
    - A JavaScript [number] that the code only uses as an integer (seconds,
      milliseconds, a retry count, the result of [Number.parseInt]) is a
      [number]: an integer of [Z] or [NaN].  IEEE doubles are exact on the
      integers below 2^53, which covers every date the platform can express.
    - A delay that involves [Math.random()] is a rational of [Q].
    - [Date.now()] is an explicit argument [now] (milliseconds).
    - A value that can be [undefined] is an [option].
    - An exception is the [Throw] case of [outcome].
    - The platform functions the code calls but does not define ([atob],
      [JSON.parse], [JSON.stringify], HMAC-SHA256, [URL]) are the fields of the
      classes [JwtRuntime], [UrlRuntime] and [WebhookRuntime].
    - A string is a sequence of 8-bit characters. *)

From Stdlib Require Import ZArith QArith Qminmax String Ascii List Bool Lia.
From Stdlib Require Import DecimalString DecimalZ DecimalPos Lqa.
Import ListNotations.

Local Open Scope string_scope.
Local Open Scope Z_scope.

(** ** JavaScript values used by the code *)

Module JS.

(** A JavaScript number restricted to the integers, plus [NaN]. *)
Inductive number : Type :=
| Num (z : Z)
| NaN.

(** [!!n] for a number: [0] and [NaN] are falsy. *)
Definition truthy_number (n : number) : bool :=
  match n with
  | Num z => negb (z =? 0)
  | NaN => false
  end.

(** [!!s] for a string: only the empty string is falsy. *)
Definition truthy_string (s : string) : bool :=
  match s with
  | EmptyString => false
  | String _ _ => true
  end.

(** [!!x] for a value that can be [undefined]. *)
Definition truthy_opt {A : Type} (truthy : A -> bool) (x : option A) : bool :=
  match x with
  | Some a => truthy a
  | None => false
  end.

(** [x || d] on strings. *)
Definition or_string (x : option string) (d : string) : string :=
  match x with
  | Some s => if truthy_string s then s else d
  | None => d
  end.

(** [x || d] on numbers with an integer default [d]: a falsy [x] ([undefined],
    [0], [NaN]) selects [d], so the result is an integer. *)
Definition or_number (x : option number) (d : Z) : Z :=
  match x with
  | Some (Num z) => if z =? 0 then d else z
  | Some NaN => d
  | None => d
  end.

(** [x ?? d]: only [undefined] (and [null]) select the default. *)
Definition nullish {A : Type} (x : option A) (d : A) : A :=
  match x with
  | Some a => a
  | None => d
  end.

(** [a - b]. *)
Definition sub (a b : number) : number :=
  match a, b with
  | Num x, Num y => Num (x - y)
  | _, _ => NaN
  end.

(** [a * b]. *)
Definition mul (a b : number) : number :=
  match a, b with
  | Num x, Num y => Num (x * y)
  | _, _ => NaN
  end.

(** [a > b]: false as soon as one side is [NaN]. *)
Definition gt (a b : number) : bool :=
  match a, b with
  | Num x, Num y => y <? x
  | _, _ => false
  end.

(** [a < b]: false as soon as one side is [NaN]. *)
Definition lt (a b : number) : bool :=
  match a, b with
  | Num x, Num y => x <? y
  | _, _ => false
  end.

(** [s.split(sep)] for a one-character separator: the pieces between the
    occurrences of [sep], in order; never the empty list. *)
Fixpoint split (sep : ascii) (s : string) : list string :=
  match s with
  | EmptyString => [EmptyString]
  | String c s' =>
      if Ascii.eqb c sep then EmptyString :: split sep s'
      else match split sep s' with
           | [] => [String c EmptyString]
           | p :: ps => String c p :: ps
           end
  end.

(** [s.replace(/c/g, d)] for single characters. *)
Fixpoint replace_all (c d : ascii) (s : string) : string :=
  match s with
  | EmptyString => EmptyString
  | String x s' => String (if Ascii.eqb x c then d else x) (replace_all c d s')
  end.

Definition is_digit (c : ascii) : bool :=
  let n := nat_of_ascii c in (48 <=? n)%nat && (n <=? 57)%nat.

Definition digit_value (c : ascii) : Z := Z.of_nat (nat_of_ascii c) - 48.

(** White space skipped by [parseInt]: space, tab, line feed, vertical tab,
    form feed, carriage return. *)
Definition is_space (c : ascii) : bool :=
  let n := nat_of_ascii c in
  (n =? 32)%nat || ((9 <=? n)%nat && (n <=? 13)%nat).

Fixpoint skip_spaces (s : string) : string :=
  match s with
  | String c s' => if is_space c then skip_spaces s' else s
  | EmptyString => EmptyString
  end.

(** The value of the longest prefix of decimal digits of [s], continuing
    from [acc]. *)
Fixpoint digits_value (s : string) (acc : Z) : Z :=
  match s with
  | String c s' =>
      if is_digit c then digits_value s' (10 * acc + digit_value c) else acc
  | EmptyString => acc
  end.

Definition starts_with_digit (s : string) : bool :=
  match s with
  | String c _ => is_digit c
  | EmptyString => false
  end.

(** [Number.parseInt(s, 10)]: leading white space, an optional sign, then the
    longest run of decimal digits; [NaN] when there is no digit. *)
Definition parseInt (s : string) : number :=
  let s1 := skip_spaces s in
  let '(negative, s2) :=
    match s1 with
    | String "-" r => (true, r)
    | String "+" r => (false, r)
    | _ => (false, s1)
    end in
  if starts_with_digit s2
  then Num (if negative then - digits_value s2 0 else digits_value s2 0)
  else NaN.

(** [String(n)] for an integer [n]: its decimal notation. *)
Definition String_of_Z (z : Z) : string :=
  NilZero.string_of_int (Z.to_int z).

(** [String(n)] for a number. *)
Definition String_of_number (n : number) : string :=
  match n with
  | Num z => String_of_Z z
  | NaN => "NaN"
  end.

(** [f] holds of every character of [s]. *)
Fixpoint string_forall (f : ascii -> bool) (s : string) : bool :=
  match s with
  | EmptyString => true
  | String c s' => f c && string_forall f s'
  end.

(** The character [c] does not occur in [s]. *)
Definition free_of (c : ascii) (s : string) : bool :=
  string_forall (fun x => negb (Ascii.eqb x c)) s.

(** The characters of the decimal notation of an integer. *)
Definition is_digit_or_minus (c : ascii) : bool :=
  is_digit c || Ascii.eqb c "-".

(** [Math.floor(ms / 1000)]. *)
Definition floor_seconds (ms : Z) : Z := ms / 1000.

End JS.

(** ** Exceptions ([src/error.ts]) *)

Module Errors.
Import JS.

(** The error classes.  [instanceof] on a caught value is a match on the
    constructor; [JsError] stands for every thrown value that is not a
    [YotoError]: the [TypeError] of a failed [fetch], the [AbortError] of a
    timeout, a [SyntaxError] of [JSON.parse], a plain [Error]. *)
Inductive error : Type :=
| YotoAuthenticationError (message : string)
    (code requestId url method : option string)
| YotoAPIError (message : string) (statusCode : Z) (type : option string)
    (code requestId url method : option string)
| YotoConnectionError (message : string)
| YotoRateLimitError (message : string) (retryAfter : option number)
    (code requestId url method : option string)
| JsError (name message : string).

(** The [statusCode] field that the constructors pass to [YotoError]. *)
Definition statusCode (e : error) : option Z :=
  match e with
  | YotoAuthenticationError _ _ _ _ _ => Some 401
  | YotoAPIError _ sc _ _ _ _ _ => Some sc
  | YotoConnectionError _ => None
  | YotoRateLimitError _ _ _ _ _ _ => Some 429
  | JsError _ _ => None
  end.

(** The [type] field: [type || "api_error"] in [YotoError]. *)
Definition type_of (e : error) : option string :=
  match e with
  | YotoAuthenticationError _ _ _ _ _ => Some "authentication_error"
  | YotoAPIError _ _ ty _ _ _ _ => Some (or_string ty "api_error")
  | YotoConnectionError _ => Some "connection_error"
  | YotoRateLimitError _ _ _ _ _ _ => Some "rate_limit_error"
  | JsError _ _ => None
  end.

(** The [name] and [message] fields. *)
Definition name_of (e : error) : string :=
  match e with
  | YotoAuthenticationError _ _ _ _ _ => "YotoAuthenticationError"
  | YotoAPIError _ _ _ _ _ _ _ => "YotoAPIError"
  | YotoConnectionError _ => "YotoConnectionError"
  | YotoRateLimitError _ _ _ _ _ _ => "YotoRateLimitError"
  | JsError name _ => name
  end.

Definition message_of (e : error) : string :=
  match e with
  | YotoAuthenticationError message _ _ _ _ => message
  | YotoAPIError message _ _ _ _ _ _ => message
  | YotoConnectionError message => message
  | YotoRateLimitError message _ _ _ _ _ => message
  | JsError _ message => message
  end.

(** [`${error}`], that is [Error.prototype.toString]. *)
Definition String_of_error (e : error) : string :=
  match name_of e, message_of e with
  | name, EmptyString => name
  | EmptyString, message => message
  | name, message => name ++ ": " ++ message
  end.

Definition instanceof_YotoAuthenticationError (e : error) : bool :=
  match e with YotoAuthenticationError _ _ _ _ _ => true | _ => false end.

Definition instanceof_YotoConnectionError (e : error) : bool :=
  match e with YotoConnectionError _ => true | _ => false end.

Definition instanceof_YotoRateLimitError (e : error) : bool :=
  match e with YotoRateLimitError _ _ _ _ _ _ => true | _ => false end.

(** The result of a call that can throw. *)
Inductive outcome (A : Type) : Type :=
| Return (a : A)
| Throw (e : error).

Arguments Return {A} a.
Arguments Throw {A} e.

(** What [await fetch(...)] does: it rejects (no HTTP response at all) or it
    resolves with a response. *)
Inductive fetch_result (R : Type) : Type :=
| FetchFails (e : error)
| FetchResolves (r : R).

Arguments FetchFails {R} e.
Arguments FetchResolves {R} r.

End Errors.

(** ** Tokens and auth providers ([src/auth.ts], [src/auth-provider.ts]) *)

Module Auth.
Import JS Errors.

(** What [JSON.parse] gives for the payload segment, read at the return type
    of [decodeJWT], [{exp?: number; ...}]: JSON [null], or an object whose
    [exp] is a number or is missing. *)
Inductive jwt_payload : Type :=
| JwtNull
| JwtObject (exp : option number).

(** The platform functions [decodeJWT] calls; each returns or throws. *)
Class JwtRuntime : Type := {
  atob : string -> outcome string;
  JSON_parse_jwt : string -> outcome jwt_payload
}.

Definition invalid_format : error := JsError "Error" "Invalid JWT format".

(** The [try] block of [decodeJWT]: three segments separated by dots, the
    second one non-empty, base64url-decoded and parsed as JSON. *)
Definition decodeJWT_try `{JwtRuntime} (token : string) : outcome jwt_payload :=
  let parts := split "." token in
  if negb (Nat.eqb (List.length parts) 3) then Throw invalid_format
  else
    match nth_error parts 1 with
    | None => Throw invalid_format
    | Some base64Url =>
        if negb (truthy_string base64Url) then Throw invalid_format
        else
          let base64 := replace_all "_" "/" (replace_all "-" "+" base64Url) in
          match atob base64 with
          | Throw e => Throw e
          | Return jsonPayload => JSON_parse_jwt jsonPayload
          end
    end.

(** [decodeJWT]: whatever the [try] block throws is thrown again as an
    [Error] that quotes it. *)
Definition decodeJWT `{JwtRuntime} (token : string) : outcome jwt_payload :=
  match decodeJWT_try token with
  | Return decoded => Return decoded
  | Throw error =>
      Throw (JsError "Error"
               ("Failed to decode JWT: " ++ String_of_error error))
  end.

(** [isTokenExpired], with [Date.now()] as [now].  Reading [.exp] of [null]
    throws inside the [try], so it answers [true]. *)
Definition isTokenExpired `{JwtRuntime} (now : Z) (accessToken : string)
  : bool :=
  match decodeJWT accessToken with
  | Return JwtNull => true
  | Return (JwtObject None) => true
  | Return (JwtObject (Some exp)) =>
      if negb (truthy_number exp) then true
      else lt (mul exp (Num 1000)) (Num (now + 30000))
  | Throw _ => true
  end.

Record TokenResponse : Type := {
  access_token : string;
  refresh_token : string;
  expires_in : option number;
  token_type : option string
}.

(** The response of the token endpoint, as [refreshAccessToken] reads it:
    [response.ok], [response.text()], and [response.json()] read field by
    field into a [TokenResponse]. *)
Record TokenEndpointResponse : Type := {
  tok_ok : bool;
  tok_text : string;
  tok_json : outcome TokenResponse
}.

(** The request [refreshAccessToken] sends. *)
Record TokenRequest : Type := {
  treq_url : string;
  treq_body : list (string * string);
  treq_timeout : Z
}.

(** The token endpoint as the provider sees it. *)
Definition TokenEndpoint : Type :=
  TokenRequest -> fetch_result TokenEndpointResponse.

(** [refreshAccessToken]: one POST.  [tried] is the [try] block, the final
    match the [catch] block: a non-2xx answer is an authentication error,
    anything else thrown is wrapped into a connection error. *)
Definition refreshAccessToken (fetch : TokenEndpoint)
    (authBaseUrl clientId refreshToken : string) (timeout : Z)
  : outcome TokenResponse :=
  let url := authBaseUrl ++ "/oauth/token" in
  let req := {| treq_url := url;
                treq_body := [("grant_type", "refresh_token");
                              ("client_id", clientId);
                              ("refresh_token", refreshToken)];
                treq_timeout := timeout |} in
  let tried :=
    match fetch req with
    | FetchFails e => Throw e
    | FetchResolves response =>
        if negb (tok_ok response)
        then Throw (YotoAuthenticationError
                      ("Token refresh failed: " ++ tok_text response)
                      None None None None)
        else tok_json response
    end in
  match tried with
  | Return data => Return data
  | Throw error =>
      if instanceof_YotoAuthenticationError error then Throw error
      else Throw (YotoConnectionError
                    ("Token refresh request failed: "
                     ++ String_of_error error))
  end.

(** What one call of [getAccessToken] can observe of the world. *)
Record AuthEnv : Type := {
  env_now : Z;
  env_token_endpoint : TokenEndpoint
}.

(** The interface [AuthProvider]: one operation, which may update the
    provider's own state. *)
Class AuthProvider (P : Type) : Type := {
  getAccessToken : AuthEnv -> P -> outcome string * P
}.

(** [StaticTokenProvider]. *)
Record StaticTokenProvider : Type := {
  accessToken : string
}.

#[export] Instance StaticTokenProvider_AuthProvider
  : AuthProvider StaticTokenProvider := {
  getAccessToken _ this := (Return (accessToken this), this)
}.

(** [RefreshableAuthProvider]: [tokens] is the one mutable slot. *)
Record RefreshableAuthProvider : Type := {
  authBaseUrl : string;
  clientId : string;
  timeout : Z;
  tokens : TokenResponse
}.

Definition set_tokens (this : RefreshableAuthProvider) (t : TokenResponse)
  : RefreshableAuthProvider :=
  {| authBaseUrl := authBaseUrl this;
     clientId := clientId this;
     timeout := timeout this;
     tokens := t |}.

Definition Refreshable_getAccessToken `{JwtRuntime} (env : AuthEnv)
    (this : RefreshableAuthProvider)
  : outcome string * RefreshableAuthProvider :=
  if isTokenExpired (env_now env) (access_token (tokens this)) then
    match refreshAccessToken (env_token_endpoint env) (authBaseUrl this)
            (clientId this) (refresh_token (tokens this)) (timeout this) with
    | Throw e => (Throw e, this)
    | Return t =>
        let this' := set_tokens this t in
        (Return (access_token (tokens this')), this')
    end
  else (Return (access_token (tokens this)), this).

#[export] Instance RefreshableAuthProvider_AuthProvider `{JwtRuntime}
  : AuthProvider RefreshableAuthProvider := {
  getAccessToken := Refreshable_getAccessToken
}.

End Auth.

(** ** The request pipeline ([src/http-client.ts]) *)

Module Http.
Import JS Errors Auth.

Definition DEFAULT_BASE_URL : string := "https://api.yotoplay.com".
Definition DEFAULT_TIMEOUT : Z := 30000.
Definition DEFAULT_MAX_RETRIES : Z := 3.

(** [YotoConfig] without [headers]: the request headers only travel to
    [fetch], whose answer is given by the world below. *)
Record YotoConfig : Type := {
  cfg_baseUrl : option string;
  cfg_timeout : option number;
  cfg_maxRetries : option number
}.

Record HttpClient (P : Type) : Type := {
  authProvider : P;
  baseUrl : string;
  timeout : Z;
  maxRetries : Z
}.

Arguments authProvider {P} _.
Arguments baseUrl {P} _.
Arguments timeout {P} _.
Arguments maxRetries {P} _.

(** The constructor. *)
Definition new_HttpClient {P : Type} (provider : P) (config : YotoConfig)
  : HttpClient P :=
  {| authProvider := provider;
     baseUrl := or_string (cfg_baseUrl config) DEFAULT_BASE_URL;
     timeout := or_number (cfg_timeout config) DEFAULT_TIMEOUT;
     maxRetries := or_number (cfg_maxRetries config) DEFAULT_MAX_RETRIES |}.

Inductive HttpMethod : Type := GET | POST | PUT | DELETE | PATCH.

Definition method_name (m : HttpMethod) : string :=
  match m with
  | GET => "GET"
  | POST => "POST"
  | PUT => "PUT"
  | DELETE => "DELETE"
  | PATCH => "PATCH"
  end.

Inductive query_value : Type :=
| QString (s : string)
| QNumber (n : number)
| QBoolean (b : bool).

Definition String_of_query_value (v : query_value) : string :=
  match v with
  | QString s => s
  | QNumber n => String_of_number n
  | QBoolean true => "true"
  | QBoolean false => "false"
  end.

(** [RequestOptions] without [headers] and [body] (see [YotoConfig]). *)
Record RequestOptions : Type := {
  opt_method : option HttpMethod;
  opt_query : option (list (string * option query_value))
}.

(** [options.method || "GET"]. *)
Definition request_method (options : RequestOptions) : string :=
  match opt_method options with
  | Some m => method_name m
  | None => "GET"
  end.

(** [new URL(path, base)], the [searchParams.append] calls and [toString()];
    the constructor can throw. *)
Class UrlRuntime : Type := {
  URL_href : string -> string -> list (string * string) -> outcome string
}.

(** The pairs [buildUrl] appends: the entries whose value is not [undefined]. *)
Fixpoint query_pairs (q : list (string * option query_value))
  : list (string * string) :=
  match q with
  | [] => []
  | (key, Some value) :: q' =>
      (key, String_of_query_value value) :: query_pairs q'
  | (_, None) :: q' => query_pairs q'
  end.

Definition buildUrl `{UrlRuntime} {P : Type} (this : HttpClient P)
    (path : string) (query : option (list (string * option query_value)))
  : outcome string :=
  URL_href path (baseUrl this)
    (match query with Some q => query_pairs q | None => [] end).

(** The body of an error response read as a [YotoErrorResponse]. *)
Record ErrorDetail : Type := {
  err_message : string;
  err_type : string;
  err_code : option string
}.

Record YotoErrorResponse : Type := {
  err_error : option ErrorDetail
}.

(** A [Response] of [fetch].  [headers_get] is [response.headers.get];
    [json_error] and [json_data] are the two readings of [response.json()]
    that the code makes: as a [YotoErrorResponse] on the error path, where a
    failure is swallowed ([None]), and as the caller's [T] on the success
    path, where a failure is thrown. *)
Record Response (T : Type) : Type := {
  status : Z;
  statusText : string;
  headers_get : string -> option string;
  json_error : option YotoErrorResponse;
  json_data : outcome T
}.

Arguments status {T} _.
Arguments statusText {T} _.
Arguments headers_get {T} _ _.
Arguments json_error {T} _.
Arguments json_data {T} _.

(** [response.ok]. *)
Definition ok {T : Type} (r : Response T) : bool :=
  (200 <=? status r) && (status r <=? 299).

(** [x || undefined] on a header value. *)
Definition or_undefined (x : option string) : option string :=
  match x with
  | Some s => if truthy_string s then Some s else None
  | None => None
  end.

Section ErrorResponse.
Context {T : Type}.

Definition error_detail (r : Response T) : option ErrorDetail :=
  match json_error r with
  | Some errorData => err_error errorData
  | None => None
  end.

(** [errorData?.error?.message || response.statusText || "Unknown error"]. *)
Definition error_message (r : Response T) : string :=
  or_string (Some (or_string (option_map err_message (error_detail r))
                             (statusText r)))
            "Unknown error".

(** [errorData?.error?.code]. *)
Definition error_code (r : Response T) : option string :=
  match error_detail r with
  | Some d => err_code d
  | None => None
  end.

Definition error_requestId (r : Response T) : option string :=
  or_undefined (headers_get r "X-Request-Id").

(** [retryAfter ? Number.parseInt(retryAfter, 10) : undefined]. *)
Definition retryAfterSeconds (r : Response T) : option number :=
  match headers_get r "Retry-After" with
  | Some retryAfter =>
      if truthy_string retryAfter then Some (parseInt retryAfter) else None
  | None => None
  end.

(** [handleErrorResponse] always throws; this is the error it throws. *)
Definition handleErrorResponse (response : Response T) (url method : string)
  : error :=
  let requestId := error_requestId response in
  let message := error_message response in
  let code := error_code response in
  if status response =? 401 then
    YotoAuthenticationError message code requestId (Some url) (Some method)
  else if status response =? 429 then
    YotoRateLimitError message (retryAfterSeconds response) code requestId
      (Some url) (Some method)
  else
    YotoAPIError message (status response)
      (option_map err_type (error_detail response)) code requestId
      (Some url) (Some method).

End ErrorResponse.

(** The second half of [calculateRetryDelay]: exponential delay plus jitter,
    capped. *)
Definition backoffDelay (attempt : nat) (random : Q) : Q :=
  let baseDelay := 1000%Q in
  let exponentialDelay := (baseDelay * inject_Z (2 ^ Z.of_nat attempt))%Q in
  let jitter := (random * 1000)%Q in
  Qmin (exponentialDelay + jitter) 10000.

(** [calculateRetryDelay], with the draw of [Math.random()] as [random]:
    [if (retryAfter) return retryAfter * 1000], else the backoff. *)
Definition calculateRetryDelay (attempt : nat) (retryAfter : option number)
    (random : Q) : Q :=
  match retryAfter with
  | Some (Num r) =>
      if truthy_number (Num r) then inject_Z (r * 1000)
      else backoffDelay attempt random
  | Some NaN => backoffDelay attempt random
  | None => backoffDelay attempt random
  end.

(** [error.retryAfter], a field of [YotoRateLimitError] only. *)
Definition retryAfter_of (e : error) : option number :=
  match e with
  | YotoRateLimitError _ retryAfter _ _ _ _ => retryAfter
  | _ => None
  end.

(** The delay the [catch] block sleeps before the next iteration. *)
Definition retryDelay (attempt : nat) (error : error) (random : Q) : Q :=
  if instanceof_YotoRateLimitError error
  then calculateRetryDelay attempt (retryAfter_of error) random
  else calculateRetryDelay attempt None random.

(** An error "carries a Retry-After value the code honours" when it is a
    rate-limit error whose [retryAfter] is a non-zero integer. *)
Definition honoured_retry_after (e : error) : option Z :=
  match e with
  | YotoRateLimitError _ (Some (Num r)) _ _ _ _ =>
      if r =? 0 then None else Some r
  | _ => None
  end.

(** What the program does that the outside can see. *)
Inductive event : Type :=
| EvAttempt (attempt : nat)
| EvFetch (attempt : nat) (url method : string)
| EvSleep (ms : Q).

Definition is_fetch (ev : event) : bool :=
  match ev with EvFetch _ _ _ => true | _ => false end.

Definition is_sleep (ev : event) : bool :=
  match ev with EvSleep _ => true | _ => false end.

Definition is_attempt (ev : event) : bool :=
  match ev with EvAttempt _ => true | _ => false end.

Definition count (f : event -> bool) (tr : list event) : nat :=
  List.length (filter f tr).

(** What one iteration of the retry loop observes of the world. *)
Record AttemptWorld (T : Type) : Type := {
  auth_env : AuthEnv;
  fetched : fetch_result (Response T);
  random : Q
}.

Arguments auth_env {T} _.
Arguments fetched {T} _.
Arguments random {T} _.

(** The result of [request]: what it returns or throws, what it did, and the
    provider as the calls to [getAccessToken] left it. *)
Record Run (P T : Type) : Type := {
  result : outcome T;
  trace : list event;
  provider : P
}.

Arguments result {P T} _.
Arguments trace {P T} _.
Arguments provider {P T} _.

Section Request.
Context {P : Type} `{AuthProvider P} {T : Type}.

(** The [try] block of one iteration: token, [fetch], classification of a
    non-2xx response, parsing of the body. *)
Definition attempt_body (url method : string) (attempt : nat)
    (w : AttemptWorld T) (p : P) : outcome T * list event * P :=
  match getAccessToken (auth_env w) p with
  | (Throw e, p') => (Throw e, [EvAttempt attempt], p')
  | (Return accessToken, p') =>
      let evs := [EvAttempt attempt; EvFetch attempt url method] in
      match fetched w with
      | FetchFails e => (Throw e, evs, p')
      | FetchResolves response =>
          if negb (ok response)
          then (Throw (handleErrorResponse response url method), evs, p')
          else
            match json_data response with
            | Throw e => (Throw e, evs, p')
            | Return data => (Return data, evs, p')
            end
      end
  end.


(** The [for] loop of [request] from iteration [attempt] on.  [fuel] bounds
    the number of iterations; [None] only when it runs out. *)
Fixpoint request_loop (fuel : nat) (this : HttpClient P) (url method : string)
    (world : nat -> AttemptWorld T) (attempt : nat)
    (lastError : option error) (p : P) (tr : list event)
  : option (Run P T) :=
  match fuel with
  | O => None
  | S fuel' =>
      if Z.of_nat attempt <=? maxRetries this then
        match attempt_body url method attempt (world attempt) p with
        | (Return data, evs, p') =>
            Some {| result := Return data; trace := tr ++ evs; provider := p' |}
        | (Throw error, evs, p') =>
            if instanceof_YotoAuthenticationError error
               || instanceof_YotoConnectionError error
            then Some {| result := Throw error; trace := tr ++ evs;
                         provider := p' |}
            else if Z.of_nat attempt <? maxRetries this then
              let delay := retryDelay attempt error (random (world attempt)) in
              request_loop fuel' this url method world (S attempt)
                (Some error) p' (tr ++ evs ++ [EvSleep delay])
            else Some {| result := Throw error; trace := tr ++ evs;
                         provider := p' |}
        end
      else
        Some {| result :=
                  Throw (match lastError with
                         | Some e => e
                         | None =>
                             YotoConnectionError "Request failed after retries"
                         end);
                trace := tr; provider := p |}
  end.

(** Enough fuel for every iteration and the exit test. *)
Definition request_fuel (this : HttpClient P) : nat :=
  S (Z.to_nat (maxRetries this + 1)).

(** [request]. *)
Definition request `{UrlRuntime} (this : HttpClient P) (path : string)
    (options : RequestOptions) (world : nat -> AttemptWorld T)
  : option (Run P T) :=
  match buildUrl this path (opt_query options) with
  | Throw e =>
      Some {| result := Throw e; trace := []; provider := authProvider this |}
  | Return url =>
      let method := request_method options in
      request_loop (request_fuel this) this url method world 0 None
        (authProvider this) []
  end.

End Request.

End Http.

(** ** Webhook verification ([src/webhooks.ts]) *)

Module Webhooks.
Import JS Errors.

Definition TIMESTAMP_TOLERANCE : Z := 300.

Record ConstructEventOptions : Type := {
  tolerance : option number
}.

(** The platform functions of this module, for events of type [Event]:
    HMAC-SHA256 with a hex digest ([createHmac("sha256", key).update(msg)
    .digest("hex")]), [JSON.parse] ([None] when it throws) and
    [JSON.stringify]. *)
Class WebhookRuntime (Event : Type) : Type := {
  hmac_sha256_hex : string -> string -> string;
  JSON_parse : string -> option Event;
  JSON_stringify : Event -> string
}.

(** A lower-case hexadecimal digit. *)
Definition is_hex_char (c : ascii) : bool :=
  let n := nat_of_ascii c in
  is_digit c || ((97 <=? n)%nat && (n <=? 102)%nat).

(** The shape of [digest("hex")] for SHA-256: 64 hexadecimal digits. *)
Definition hex_digest (s : string) : bool :=
  Nat.eqb (String.length s) 64 && string_forall is_hex_char s.

Definition webhook_error (message : string) : error := JsError "Error" message.

(** The loop over the comma-separated parts: the last [t] and the last [v1]
    win, and a part without [=] gives [undefined]. *)
Definition parse_part (acc : option string * option string) (part : string)
  : option string * option string :=
  let kv := split "=" part in
  let key := nth_error kv 0 in
  let value := nth_error kv 1 in
  match key with
  | Some "t" => (value, snd acc)
  | Some "v1" => (fst acc, value)
  | _ => acc
  end.

Definition parse_header (signature : string) : option string * option string :=
  fold_left parse_part (split "," signature) (None, None).

(** [secureCompare]: the lengths first, then [timingSafeEqual]. *)
Definition secureCompare (a b : string) : bool :=
  if negb (Nat.eqb (String.length a) (String.length b)) then false
  else String.eqb a b.

Section Verify.
Context {Event : Type} `{WebhookRuntime Event}.

Definition computeSignature (timestamp payload secret : string) : string :=
  let signedPayload := timestamp ++ "." ++ payload in
  hmac_sha256_hex secret signedPayload.

(** [constructEvent], with [Date.now()] as [now]. *)
Definition constructEvent (now : Z) (payload signature secret : string)
    (options : ConstructEventOptions) : outcome Event :=
  let tolerance := nullish (tolerance options) (Num TIMESTAMP_TOLERANCE) in
  if negb (truthy_string signature)
  then Throw (webhook_error "No signature provided")
  else
    let '(timestamp, providedSignature) := parse_header signature in
    match timestamp, providedSignature with
    | Some timestamp, Some providedSignature =>
        if negb (truthy_string timestamp)
           || negb (truthy_string providedSignature)
        then Throw (webhook_error "Invalid signature format")
        else
          let timestampSeconds := parseInt timestamp in
          let currentTime := floor_seconds now in
          if gt (sub (Num currentTime) timestampSeconds) tolerance
          then Throw (webhook_error "Timestamp outside tolerance window")
          else
            let expectedSignature :=
              computeSignature timestamp payload secret in
            if negb (secureCompare expectedSignature providedSignature)
            then Throw (webhook_error "Signature verification failed")
            else
              match JSON_parse payload with
              | Some event => Return event
              | None => Throw (webhook_error "Invalid JSON payload")
              end
    | _, _ => Throw (webhook_error "Invalid signature format")
    end.

(** The options of [generateTestHeaderString]; [payload] is a string or an
    object. *)
Record TestHeaderOptions : Type := {
  th_payload : string + Event;
  th_secret : string;
  th_timestamp : option number
}.

Definition generateTestHeaderString (now : Z) (options : TestHeaderOptions)
  : string :=
  let payloadString :=
    match th_payload options with
    | inl s => s
    | inr obj => JSON_stringify obj
    end in
  let timestampSeconds :=
    or_number (th_timestamp options) (floor_seconds now) in
  let signature :=
    computeSignature (String_of_Z timestampSeconds) payloadString
      (th_secret options) in
  "t=" ++ String_of_Z timestampSeconds ++ ",v1=" ++ signature.

End Verify.

End Webhooks.

(** ** The request pipeline, continued: attempts and request headers *)

Module HttpMore.
Import JS Errors Auth Http.

Section Attempts.
Context {P : Type} `{AuthProvider P} {T : Type}.

(** The provider hands out a token in the world [w], whatever its state. *)
Definition token_available (w : AttemptWorld T) : Prop :=
  forall p : P, exists tok p',
    getAccessToken (auth_env w) p = (Return tok, p').

(** The error in which the [try] block ends once the token is there: the
    rejection of [fetch], the classified non-2xx response, or the failure to
    parse a 2xx body; [None] when the block returns. *)
Definition attempt_error (url method : string) (w : AttemptWorld T)
  : option error :=
  match fetched w with
  | FetchFails e => Some e
  | FetchResolves response =>
      if negb (ok response)
      then Some (handleErrorResponse response url method)
      else match json_data response with
           | Throw e => Some e
           | Return _ => None
           end
  end.

(** The data with which the [try] block returns, if it does. *)
Definition attempt_data (w : AttemptWorld T) : option T :=
  match fetched w with
  | FetchFails _ => None
  | FetchResolves response =>
      if negb (ok response) then None
      else match json_data response with
           | Throw _ => None
           | Return data => Some data
           end
  end.

End Attempts.

(** The errors the [catch] block of [request] does not rethrow at once. *)
Definition retried (e : error) : bool :=
  negb (instanceof_YotoAuthenticationError e
        || instanceof_YotoConnectionError e).

(** The [url] and [method] fields of a [YotoError]. *)
Definition url_of (e : error) : option string :=
  match e with
  | YotoAuthenticationError _ _ _ url _ => url
  | YotoAPIError _ _ _ _ _ url _ => url
  | YotoRateLimitError _ _ _ _ url _ => url
  | YotoConnectionError _ => None
  | JsError _ _ => None
  end.

Definition method_of (e : error) : option string :=
  match e with
  | YotoAuthenticationError _ _ _ _ method => method
  | YotoAPIError _ _ _ _ _ _ method => method
  | YotoRateLimitError _ _ _ _ _ method => method
  | YotoConnectionError _ => None
  | JsError _ _ => None
  end.

(** A [Record<string, string>]: the entries in insertion order. *)
Definition headers : Type := list (string * string).

(** [o[k]]. *)
Fixpoint get (o : headers) (k : string) : option string :=
  match o with
  | [] => None
  | (k', v) :: o' => if String.eqb k' k then Some v else get o' k
  end.

(** [o[k] = v]: an existing key keeps its place. *)
Fixpoint set (o : headers) (k v : string) : headers :=
  match o with
  | [] => [(k, v)]
  | (k', v') :: o' =>
      if String.eqb k' k then (k', v) :: o' else (k', v') :: set o' k v
  end.






End HttpMore.

(** ** The device code flow ([src/auth.ts], [YotoDeviceAuth]) *)

Module DeviceFlow.
Import JS Errors Auth.

Definition DEFAULT_AUTH_BASE_URL : string := "https://login.yotoplay.com".
Definition DEFAULT_API_AUDIENCE : string := "https://api.yotoplay.com".
Definition DEFAULT_TIMEOUT : Z := 30000.

Record AuthConfig : Type := {
  cfg_authBaseUrl : option string;
  cfg_apiAudience : option string;
  cfg_timeout : option number
}.

Record YotoDeviceAuth : Type := {
  clientId : string;
  authBaseUrl : string;
  apiAudience : string;
  timeout : Z
}.

(** The constructor; [config] is optional. *)
Definition new_YotoDeviceAuth (clientId : string) (config : option AuthConfig)
  : YotoDeviceAuth :=
  {| clientId := clientId;
     authBaseUrl :=
       or_string (match config with
                  | Some c => cfg_authBaseUrl c
                  | None => None
                  end) DEFAULT_AUTH_BASE_URL;
     apiAudience :=
       or_string (match config with
                  | Some c => cfg_apiAudience c
                  | None => None
                  end) DEFAULT_API_AUDIENCE;
     timeout :=
       or_number (match config with
                  | Some c => cfg_timeout c
                  | None => None
                  end) DEFAULT_TIMEOUT |}.

Definition createProvider (this : YotoDeviceAuth) (tokens : TokenResponse)
  : RefreshableAuthProvider :=
  {| Auth.authBaseUrl := authBaseUrl this;
     Auth.clientId := clientId this;
     Auth.timeout := timeout this;
     Auth.tokens := tokens |}.

(** The body of the device code response as [initiateDeviceLogin] reads it. *)
Record DeviceCodeData : Type := {
  data_device_code : string;
  data_user_code : string;
  data_verification_uri : string;
  data_verification_uri_complete : string;
  data_interval : option number;
  data_expires_in : option number
}.

Record DeviceCodeResponse : Type := {
  device_code : string;
  user_code : string;
  verification_uri : string;
  verification_uri_complete : string;
  interval : Z;
  expires_in : Z
}.

Record DeviceCodeEndpointResponse : Type := {
  dc_ok : bool;
  dc_text : string;
  dc_json : outcome DeviceCodeData
}.

(** [initiateDeviceLogin]: [tried] is the [try] block, the final match the
    [catch] block. *)
Definition initiateDeviceLogin
    (fetch : TokenRequest -> fetch_result DeviceCodeEndpointResponse)
    (this : YotoDeviceAuth) : outcome DeviceCodeResponse :=
  let url := authBaseUrl this ++ "/oauth/device/code" in
  let req := {| treq_url := url;
                treq_body := [("client_id", clientId this);
                              ("scope", "openid profile email offline_access");
                              ("audience", apiAudience this)];
                treq_timeout := timeout this |} in
  let tried :=
    match fetch req with
    | FetchFails e => Throw e
    | FetchResolves response =>
        if negb (dc_ok response)
        then Throw (YotoAuthenticationError
                      ("Device login initiation failed: " ++ dc_text response)
                      None None None None)
        else
          match dc_json response with
          | Throw e => Throw e
          | Return data =>
              Return {| device_code := data_device_code data;
                        user_code := data_user_code data;
                        verification_uri := data_verification_uri data;
                        verification_uri_complete :=
                          data_verification_uri_complete data;
                        interval := or_number (data_interval data) 5;
                        expires_in := or_number (data_expires_in data) 300 |}
          end
    end in
  match tried with
  | Return d => Return d
  | Throw error =>
      if instanceof_YotoAuthenticationError error then Throw error
      else Throw (YotoConnectionError
                    ("Device login request failed: " ++ String_of_error error))
  end.

Definition instanceof_YotoAPIError (e : error) : bool :=
  match e with YotoAPIError _ _ _ _ _ _ _ => true | _ => false end.

(** The body of a 403 answer of the token endpoint as [pollForToken] reads
    it. *)
Record OAuthErrorData : Type := {
  error_field : option string;
  error_description : option string
}.

(** An answer to one poll: status, status text, and the two readings of
    [response.json()] the code makes, as tokens on the 2xx path and as an
    OAuth error on the 403 path. *)
Record PollResponse : Type := {
  poll_status : Z;
  poll_statusText : string;
  poll_json_tokens : outcome TokenResponse;
  poll_json_error : outcome OAuthErrorData
}.

Definition poll_ok (r : PollResponse) : bool :=
  (200 <=? poll_status r) && (poll_status r <=? 299).

(** [(errorData.error_description as string) || (errorData.error as string)]
    as the message of an [Error]: an undefined message is the empty one. *)
Definition oauth_error_message (d : OAuthErrorData) : string :=
  match error_description d with
  | Some (String c s) => String c s
  | _ => match error_field d with
         | Some s => s
         | None => ""
         end
  end.

(** How one iteration of the polling loop ends. *)
Inductive poll_step : Type :=
| PollReturn (tokens : TokenResponse)
| PollThrow (e : error)
| PollContinue (intervalMs : Z).

(** One iteration of [while (true)]: [tried] is the [try] block, which
    returns the tokens or reaches a [continue] after sleeping for the
    (possibly raised) interval; the final match is the [catch] block. *)
Definition poll_once (answer : fetch_result PollResponse) (intervalMs : Z)
  : poll_step :=
  let tried : outcome (TokenResponse + Z) :=
    match answer with
    | FetchFails e => Throw e
    | FetchResolves response =>
        if poll_ok response then
          match poll_json_tokens response with
          | Return data => Return (inl data)
          | Throw e => Throw e
          end
        else if poll_status response =? 403 then
          match poll_json_error response with
          | Throw e => Throw e
          | Return errorData =>
              match error_field errorData with
              | Some "authorization_pending" => Return (inr intervalMs)
              | Some "slow_down" => Return (inr (intervalMs + 5000))
              | Some "expired_token" =>
                  Throw (YotoAuthenticationError
                           "Device code has expired. Please restart the device login process."
                           None None None None)
              | _ =>
                  Throw (YotoAuthenticationError
                           (oauth_error_message errorData)
                           None None None None)
              end
          end
        else
          Throw (YotoAPIError
                   ("Token request failed: " ++ poll_statusText response)
                   (poll_status response) None None None None None)
    end in
  match tried with
  | Return (inl tokens) => PollReturn tokens
  | Return (inr ms) => PollContinue ms
  | Throw error =>
      if instanceof_YotoAuthenticationError error
         || instanceof_YotoAPIError error
      then PollThrow error
      else PollThrow (YotoConnectionError
                        ("Token polling failed: " ++ String_of_error error))
  end.

(** What [pollForToken] did: its result, the sleeps in order, and the number
    of requests it sent. *)
Record PollRun : Type := {
  poll_result : outcome TokenResponse;
  poll_sleeps : list Z;
  poll_requests : nat
}.

(** The request of every poll. *)
Definition poll_request (this : YotoDeviceAuth) (deviceCode : string)
  : TokenRequest :=
  {| treq_url := authBaseUrl this ++ "/oauth/token";
     treq_body := [("grant_type",
                    "urn:ietf:params:oauth:grant-type:device_code");
                   ("device_code", deviceCode);
                   ("client_id", clientId this);
                   ("audience", apiAudience this)];
     treq_timeout := timeout this |}.

(** The token endpoint during polling: the answer to the [n]-th request. *)
Definition PollWorld : Type :=
  nat -> TokenRequest -> fetch_result PollResponse.

(** The loop of [pollForToken] from the [n]-th request on.  The loop has no
    exit of its own; [None] says that it is still polling after [fuel]
    requests. *)
Fixpoint pollForToken_loop (fuel : nat) (this : YotoDeviceAuth)
    (deviceCode : string) (world : PollWorld) (n : nat) (intervalMs : Z)
    (sleeps : list Z) : option PollRun :=
  match fuel with
  | O => None
  | S fuel' =>
      match poll_once (world n (poll_request this deviceCode)) intervalMs with
      | PollReturn tokens =>
          Some {| poll_result := Return tokens; poll_sleeps := sleeps;
                  poll_requests := S n |}
      | PollThrow e =>
          Some {| poll_result := Throw e; poll_sleeps := sleeps;
                  poll_requests := S n |}
      | PollContinue ms =>
          pollForToken_loop fuel' this deviceCode world (S n) ms
            (sleeps ++ [ms])
      end
  end.

(** [pollForToken]; [interval] defaults to 5 seconds. *)
Definition pollForToken (fuel : nat) (this : YotoDeviceAuth)
    (world : PollWorld) (deviceCode : string) (interval : option Z)
  : option PollRun :=
  let intervalMs := nullish interval 5 * 1000 in
  pollForToken_loop fuel this deviceCode world 0 intervalMs [].

(** The OAuth error with which a poll is answered, if it is a 403 with a
    readable body. *)
Definition oauth_error_of (answer : fetch_result PollResponse)
  : option string :=
  match answer with
  | FetchFails _ => None
  | FetchResolves response =>
      if poll_ok response then None
      else if poll_status response =? 403 then
        match poll_json_error response with
        | Return errorData => error_field errorData
        | Throw _ => None
        end
      else None
  end.

(** The number of [slow_down] answers among the first [k] polls. *)
Fixpoint slow_downs (this : YotoDeviceAuth) (deviceCode : string)
    (world : PollWorld) (k : nat) : nat :=
  match k with
  | O => 0
  | S k' =>
      slow_downs this deviceCode world k'
      + match oauth_error_of (world k' (poll_request this deviceCode)) with
        | Some "slow_down" => 1
        | _ => 0
        end
  end.

(** The poll [k] is answered with [authorization_pending] or [slow_down]. *)
Definition keeps_waiting (this : YotoDeviceAuth) (deviceCode : string)
    (world : PollWorld) (k : nat) : Prop :=
  oauth_error_of (world k (poll_request this deviceCode))
  = Some "authorization_pending"
  \/ oauth_error_of (world k (poll_request this deviceCode))
     = Some "slow_down".

End DeviceFlow.

(** ** PKCE helpers ([src/auth.ts]) *)

Module Pkce.
Import JS.
Local Open Scope nat_scope.

(** The platform functions of this part: [btoa] on a binary string and the
    SHA-256 digest of [crypto.subtle], both on strings of bytes. *)
Class PkceRuntime : Type := {
  btoa : string -> string;
  sha256 : string -> string
}.

(** [s.replace(/c/g, "")]. *)
Fixpoint remove_all (c : ascii) (s : string) : string :=
  match s with
  | EmptyString => EmptyString
  | String x s' =>
      if Ascii.eqb x c then remove_all c s' else String x (remove_all c s')
  end.

(** [s.slice(0, n)]. *)
Fixpoint slice_to (n : nat) (s : string) : string :=
  match n, s with
  | S n', String c s' => String c (slice_to n' s')
  | _, _ => EmptyString
  end.

(** [base64UrlEncode]: the bytes of the buffer are the characters of the
    binary string handed to [btoa]. *)
Definition base64UrlEncode `{PkceRuntime} (bytes : string) : string :=
  remove_all "=" (replace_all "/" "_" (replace_all "+" "-" (btoa bytes))).

(** [generateRandomString]; [random] is what [crypto.getRandomValues] put
    into the array of [length] bytes. *)
Definition generateRandomString `{PkceRuntime} (random : string) (length : nat)
  : string :=
  slice_to length (base64UrlEncode random).

(** [generatePKCEChallenge]; the verifier is ASCII, so [TextEncoder] gives
    its characters. *)
Definition generatePKCEChallenge `{PkceRuntime} (verifier : string) : string :=
  base64UrlEncode (sha256 verifier).

Definition is_alnum (c : ascii) : bool :=
  let n := nat_of_ascii c in
  is_digit c || ((65 <=? n) && (n <=? 90)) || ((97 <=? n) && (n <=? 122)).

(** The characters of base 64. *)
Definition is_base64_char (c : ascii) : bool :=
  is_alnum c || Ascii.eqb c "+" || Ascii.eqb c "/".

(** The characters of base64url, which are unreserved in a URL. *)
Definition is_url_safe (c : ascii) : bool :=
  is_alnum c || Ascii.eqb c "-" || Ascii.eqb c "_".

(** The characters after the first replacement of [base64UrlEncode] and
    before the second. *)
Definition is_half_replaced (c : ascii) : bool :=
  is_alnum c || Ascii.eqb c "-" || Ascii.eqb c "/".

(** The length of the base 64 of [n] bytes without its padding: four
    characters for every three bytes, two for one byte left over, three for
    two. *)
Fixpoint base64_length (n : nat) : nat :=
  match n with
  | 0 => 0
  | 1 => 2
  | 2 => 3
  | S (S (S n')) => 4 + base64_length n'
  end.

(** The number of [=] that pad the base 64 of [n] bytes. *)
Fixpoint padding_length (n : nat) : nat :=
  match n with
  | 0 => 0
  | 1 => 2
  | 2 => 1
  | S (S (S n')) => padding_length n'
  end.

Fixpoint padding (n : nat) : string :=
  match n with
  | O => EmptyString
  | S n' => String "=" (padding n')
  end.

(** What the platform guarantees of [btoa] (RFC 4648): base 64 characters,
    then the padding. *)
Definition btoa_is_base64 `{PkceRuntime} : Prop :=
  forall s, exists body,
    btoa s = body ++ padding (padding_length (String.length s))
    /\ String.length body = base64_length (String.length s)
    /\ string_forall is_base64_char body = true.

(** What the platform guarantees of SHA-256: 32 bytes. *)
Definition sha256_is_32_bytes `{PkceRuntime} : Prop :=
  forall s, String.length (sha256 s) = 32.

(** Base 64 as RFC 4648 defines it, to have a [btoa] that runs. *)
Definition base64_alphabet : string :=
  "ABCDEFGHIJKLMNOPQRSTUVWXYZabcdefghijklmnopqrstuvwxyz0123456789+/".

Definition base64_char (n : nat) : ascii :=
  match String.get n base64_alphabet with
  | Some c => c
  | None => "="%char
  end.

Fixpoint btoa_rfc4648 (s : string) : string :=
  match s with
  | EmptyString => EmptyString
  | String a EmptyString =>
      let x := nat_of_ascii a in
      String (base64_char (x / 4))
        (String (base64_char (x mod 4 * 16)) "==")
  | String a (String b EmptyString) =>
      let x := nat_of_ascii a in
      let y := nat_of_ascii b in
      String (base64_char (x / 4))
        (String (base64_char (x mod 4 * 16 + y / 16))
           (String (base64_char (y mod 16 * 4)) "="))
  | String a (String b (String c r)) =>
      let x := nat_of_ascii a in
      let y := nat_of_ascii b in
      let z := nat_of_ascii c in
      String (base64_char (x / 4))
        (String (base64_char (x mod 4 * 16 + y / 16))
           (String (base64_char (y mod 16 * 4 + z / 64))
              (String (base64_char (z mod 64)) (btoa_rfc4648 r))))
  end.

End Pkce.

(** ** The client and a resource ([src/yoto.ts], [src/yoto-resource.ts],
    [src/resources/family.ts]) *)

Module Client.
Import JS Errors Auth Http.

(** The provider of a client: the caller's own, or a static one made from
    the access token. *)
Definition ClientProvider (P : Type) : Type := (P + StaticTokenProvider)%type.

#[export] Instance ClientProvider_AuthProvider {P : Type} `{AuthProvider P}
  : AuthProvider (ClientProvider P) := {
  getAccessToken env p :=
    match p with
    | inl auth =>
        let '(r, auth') := getAccessToken env auth in (r, inl auth')
    | inr static =>
        let '(r, static') := getAccessToken env static in (r, inr static')
    end
}.

(** [YotoAuthConfig & Partial<YotoConfig>], without [headers]. *)
Record YotoOptions (P : Type) : Type := {
  yo_accessToken : option string;
  yo_auth : option P;
  yo_baseUrl : option string;
  yo_timeout : option number;
  yo_maxRetries : option number
}.

Arguments yo_accessToken {P} _.
Arguments yo_auth {P} _.
Arguments yo_baseUrl {P} _.
Arguments yo_timeout {P} _.
Arguments yo_maxRetries {P} _.

(** [!!config.accessToken] and [!!config.auth]. *)
Definition has_token {P : Type} (config : YotoOptions P) : bool :=
  truthy_opt truthy_string (yo_accessToken config).

Definition has_auth {P : Type} (config : YotoOptions P) : bool :=
  match yo_auth config with
  | Some _ => true
  | None => false
  end.

(** The constructor of [Yoto], up to the [HttpClient] that all resources
    share. *)
Definition new_Yoto {P : Type} (config : YotoOptions P)
  : outcome (HttpClient (ClientProvider P)) :=
  if negb (has_token config) && negb (has_auth config) then
    Throw (JsError "Error"
             "Either accessToken or auth must be provided. Example: new Yoto({ accessToken: 'your_token' })")
  else if has_token config && has_auth config then
    Throw (JsError "Error"
             "Cannot provide both accessToken and auth. Use one or the other.")
  else
    let authProvider : ClientProvider P :=
      match yo_auth config with
      | Some auth => inl auth
      | None =>
          inr {| accessToken := nullish (yo_accessToken config) "" |}
      end in
    let yotoConfig := {| cfg_baseUrl := yo_baseUrl config;
                         cfg_timeout := yo_timeout config;
                         cfg_maxRetries := yo_maxRetries config |} in
    Return (new_HttpClient authProvider yotoConfig).

Record FamilyImage : Type := {
  imageId : string;
  lastModified : string;
  eTag : string;
  size : number
}.

(** The body of [GET /media/family/images]. *)
Record ImagesResponse : Type := {
  images : list FamilyImage
}.

Section Family.
Context {P : Type} `{AuthProvider P} `{UrlRuntime}.

(** [YotoResource.get] without a query. *)
Definition resource_get {T : Type} (client : HttpClient P) (path : string)
    (world : nat -> AttemptWorld T) : option (Run P T) :=
  request client path {| opt_method := Some GET; opt_query := None |} world.

(** What a method does with the result of the request it awaits. *)
Definition then_ {A B : Type} (run : option (Run P A))
    (k : A -> outcome B) : option (Run P B) :=
  match run with
  | None => None
  | Some r =>
      Some {| result := match result r with
                        | Return a => k a
                        | Throw e => Throw e
                        end;
              trace := trace r;
              provider := provider r |}
  end.

(** [FamilyResource.listImages]. *)
Definition listImages (client : HttpClient P)
    (world : nat -> AttemptWorld ImagesResponse)
  : option (Run P (list FamilyImage)) :=
  then_ (resource_get client "/media/family/images" world)
        (fun response => Return (images response)).

(** [FamilyResource.getImage]. *)
Definition getImage (client : HttpClient P) (id : string)
    (world : nat -> AttemptWorld ImagesResponse)
  : option (Run P FamilyImage) :=
  then_ (listImages client world)
        (fun images =>
           match find (fun img => String.eqb (imageId img) id) images with
           | Some image => Return image
           | None => Throw (JsError "Error" ("Image not found: " ++ id))
           end).

End Family.

End Client.

(** ** Concrete runtimes and worlds, to run the definitions *)

Module Samples.
Import JS Errors Auth Http Webhooks.

(** A stand-in for the platform: [atob] is the identity on strings without
    ["!"], and the payload is written [null], [{}] or [exp=<digits>]. *)
Definition sample_jwt : JwtRuntime := {|
  atob := fun s =>
    if free_of "!" s then Return s
    else Throw (JsError "InvalidCharacterError" "Invalid character");
  JSON_parse_jwt := fun s =>
    match s with
    | "null" => Return JwtNull
    | "{}" => Return (JwtObject None)
    | String "e" (String "x" (String "p" (String "=" r))) =>
        Return (JwtObject (Some (parseInt r)))
    | _ => Throw (JsError "SyntaxError" "Unexpected token")
    end
|}.

Definition sample_url : UrlRuntime := {|
  URL_href := fun path base _ => Return (base ++ path)
|}.

Fixpoint char_sum (s : string) : nat :=
  match s with
  | EmptyString => 0
  | String c r => nat_of_ascii c + char_sum r
  end.

Definition hex_char (n : nat) : ascii :=
  ascii_of_nat (if (n <? 10)%nat then 48 + n else 87 + n).

Fixpoint repeat_char (n : nat) (c : ascii) : string :=
  match n with
  | O => EmptyString
  | S n' => String c (repeat_char n' c)
  end.

(** A stand-in keyed digest of the right shape. *)
Definition sample_hmac (key msg : string) : string :=
  repeat_char 64 (hex_char ((char_sum key + 3 * char_sum msg) mod 16)).

(** Events are their own JSON text; a text is JSON when it starts with a
    brace. *)
Definition sample_webhook : WebhookRuntime string := {|
  hmac_sha256_hex := sample_hmac;
  JSON_parse := fun s =>
    match s with
    | String "{" _ => Some s
    | _ => None
    end;
  JSON_stringify := fun e => e
|}.

Definition no_headers : string -> option string := fun _ => None.

Definition no_json : error :=
  JsError "SyntaxError" "Unexpected end of JSON input".

Definition sample_response (st : Z) (text : string) (data : outcome string)
  : Response string :=
  {| status := st; statusText := text; headers_get := no_headers;
     json_error := None; json_data := data |}.

(** A 429 response with a [Retry-After] header. *)
Definition retry_after_response (v : string) : Response string :=
  {| status := 429; statusText := "Too Many Requests";
     headers_get := fun name =>
       if String.eqb name "Retry-After" then Some v else None;
     json_error := None; json_data := Throw no_json |}.

Definition no_token_endpoint : TokenEndpoint :=
  fun _ => FetchFails (JsError "TypeError" "fetch failed").

Definition sample_env : AuthEnv :=
  {| env_now := 1700000000000; env_token_endpoint := no_token_endpoint |}.

Definition sample_attempt (f : fetch_result (Response string))
  : AttemptWorld string :=
  {| auth_env := sample_env; fetched := f; random := 1 # 2 |}.

(** Every attempt is answered with status [st]. *)
Definition always (st : Z) (text : string) : nat -> AttemptWorld string :=
  fun _ =>
    sample_attempt (FetchResolves (sample_response st text (Throw no_json))).

(** The first [fetch] is aborted by the timeout, the next one succeeds. *)
Definition abort_then_ok : nat -> AttemptWorld string :=
  fun attempt =>
    match attempt with
    | O => sample_attempt (FetchFails (JsError "AbortError" "aborted"))
    | S _ => sample_attempt
               (FetchResolves (sample_response 200 "OK" (Return "{}")))
    end.

Definition sample_provider : StaticTokenProvider :=
  {| accessToken := "token" |}.

(** Token pairs and a refreshable provider. *)
Definition expired_pair : TokenResponse :=
  {| access_token := "header.exp=1.signature"; refresh_token := "refresh";
     expires_in := None; token_type := None |}.

Definition fresh_pair : TokenResponse :=
  {| access_token := "header.exp=1700003600.signature";
     refresh_token := "refresh2"; expires_in := Some (Num 3600);
     token_type := Some "Bearer" |}.

Definition sample_refreshable (t : TokenResponse) : RefreshableAuthProvider :=
  {| authBaseUrl := "https://login.yotoplay.com"; clientId := "client";
     Auth.timeout := 30000; tokens := t |}.

Definition refreshing_env : AuthEnv :=
  {| env_now := 1700000000000;
     env_token_endpoint := fun _ =>
       FetchResolves {| tok_ok := true; tok_text := "";
                        tok_json := Return fresh_pair |} |}.

Definition default_config : YotoConfig :=
  {| cfg_baseUrl := None; cfg_timeout := None; cfg_maxRetries := None |}.

Definition config_maxRetries (n : Z) : YotoConfig :=
  {| cfg_baseUrl := None; cfg_timeout := None;
     cfg_maxRetries := Some (Num n) |}.

Definition get_options : RequestOptions :=
  {| opt_method := None; opt_query := None |}.

End Samples.

(** ** More concrete inputs *)

Module MoreSamples.
Import JS Errors Auth Http Webhooks Samples.

(** The header of the repository's webhook test, generated at [now]. *)
Definition test_header_at (now : Z) : string :=
  @generateTestHeaderString string sample_webhook now
    {| th_payload := inl "{}"; th_secret := "test_secret";
       th_timestamp := None |}.

(** A token endpoint that rejects every request. *)
Definition rejecting_endpoint : TokenEndpoint :=
  fun _ =>
    FetchResolves
      {| tok_ok := false; tok_text := "invalid_grant";
         tok_json := Throw (JsError "SyntaxError" "Unexpected token") |}.

(** The device flow client of the repository's tests. *)
Definition sample_device_auth : DeviceFlow.YotoDeviceAuth :=
  DeviceFlow.new_YotoDeviceAuth "test_client_id" None.

Definition oauth_answer (status : Z) (error : string)
  : fetch_result DeviceFlow.PollResponse :=
  FetchResolves
    {| DeviceFlow.poll_status := status;
       DeviceFlow.poll_statusText := "Forbidden";
       DeviceFlow.poll_json_tokens :=
         Throw (JsError "TypeError" "not a token response");
       DeviceFlow.poll_json_error :=
         Return {| DeviceFlow.error_field := Some error;
                   DeviceFlow.error_description := None |} |}.

Definition token_answer (t : TokenResponse)
  : fetch_result DeviceFlow.PollResponse :=
  FetchResolves
    {| DeviceFlow.poll_status := 200;
       DeviceFlow.poll_statusText := "OK";
       DeviceFlow.poll_json_tokens := Return t;
       DeviceFlow.poll_json_error :=
         Return {| DeviceFlow.error_field := None;
                   DeviceFlow.error_description := None |} |}.

(** The user authorizes between the second and the third poll; the second
    poll came too early. *)
Definition pending_slow_down_tokens : DeviceFlow.PollWorld :=
  fun n _ =>
    match n with
    | 0%nat => oauth_answer 403 "authorization_pending"
    | 1%nat => oauth_answer 403 "slow_down"
    | _ => token_answer fresh_pair
    end.

(** The user never authorizes. *)
Definition always_pending : DeviceFlow.PollWorld :=
  fun _ _ => oauth_answer 403 "authorization_pending".

(** The network is down. *)
Definition polling_offline : DeviceFlow.PollWorld :=
  fun _ _ => FetchFails (JsError "TypeError" "fetch failed").

(** A device code endpoint whose answer has no [interval] and an
    [expires_in] of 0. *)
Definition device_code_endpoint
  : TokenRequest -> fetch_result DeviceFlow.DeviceCodeEndpointResponse :=
  fun _ =>
    FetchResolves
      {| DeviceFlow.dc_ok := true; DeviceFlow.dc_text := "";
         DeviceFlow.dc_json :=
           Return {| DeviceFlow.data_device_code := "device_123";
                     DeviceFlow.data_user_code := "ABCD-EFGH";
                     DeviceFlow.data_verification_uri :=
                       "https://example.com/verify";
                     DeviceFlow.data_verification_uri_complete :=
                       "https://example.com/verify?code=ABCD-EFGH";
                     DeviceFlow.data_interval := None;
                     DeviceFlow.data_expires_in := Some (Num 0) |} |}.

(** A platform whose [btoa] is RFC 4648 base 64, with a stand-in digest of
    the right size. *)
Definition sample_pkce : Pkce.PkceRuntime := {|
  Pkce.btoa := Pkce.btoa_rfc4648;
  Pkce.sha256 := fun s =>
    repeat_char 32 (ascii_of_nat (char_sum s mod 256))
|}.

(** Two family images, and a server that lists them. *)
Definition image_a : Client.FamilyImage :=
  {| Client.imageId := "img_a"; Client.lastModified := "2024-01-01";
     Client.eTag := "etag_a"; Client.size := Num 1024 |}.

Definition image_b : Client.FamilyImage :=
  {| Client.imageId := "img_b"; Client.lastModified := "2024-01-02";
     Client.eTag := "etag_b"; Client.size := Num 2048 |}.

Definition images_world : nat -> AttemptWorld Client.ImagesResponse :=
  fun _ =>
    {| auth_env := sample_env;
       fetched :=
         FetchResolves
           {| status := 200; statusText := "OK"; headers_get := no_headers;
              json_error := None;
              json_data :=
                Return {| Client.images := [image_a; image_b] |} |};
       random := 1 # 2 |}.

End MoreSamples.

(** ** The definitions on concrete inputs *)

Module Runs.
Import JS Errors Auth Http Webhooks Samples.

Example split_header : split "," "t=12,v1=ab" = ["t=12"; "v1=ab"].
Proof. reflexivity. Qed.

Example split_empty : split "," "" = [""].
Proof. reflexivity. Qed.

Example parseInt_prefix : parseInt "  -12ab" = Num (-12).
Proof. reflexivity. Qed.

Example parseInt_no_digit : parseInt "abc" = NaN.
Proof. reflexivity. Qed.

Example String_negative : String_of_Z (-1705) = "-1705".
Proof. reflexivity. Qed.

Example String_zero : String_of_Z 0 = "0".
Proof. reflexivity. Qed.

(** The cases of [test/auth.test.ts] for [isTokenExpired], at the time
    1700000000 s: expired an hour ago, valid for an hour, expiring in 20 s,
    malformed, without [exp]. *)
Example token_cases :
  @isTokenExpired sample_jwt 1700000000000 "h.exp=1699996400.signature" = true
  /\ @isTokenExpired sample_jwt 1700000000000 "h.exp=1700003600.signature"
     = false
  /\ @isTokenExpired sample_jwt 1700000000000 "h.exp=1700000020.signature"
     = true
  /\ @isTokenExpired sample_jwt 1700000000000 "invalid.token" = true
  /\ @isTokenExpired sample_jwt 1700000000000 "h.{}.signature" = true.
Proof. repeat split. Qed.

Definition test_header (now : Z) (timestamp : option number) : string :=
  @generateTestHeaderString string sample_webhook now
    {| th_payload := inl "{}"; th_secret := "test_secret";
       th_timestamp := timestamp |}.

(** The cases of [test/webhooks.test.ts]: a generated header is accepted, a
    wrong signature and a timestamp 400 s old are rejected, and the old
    timestamp is accepted with a tolerance of 500 s. *)
Example webhook_cases :
  @constructEvent string sample_webhook 1700000000000 "{}"
    (test_header 1700000000000 None) "test_secret" {| tolerance := None |}
  = Return "{}"
  /\ @constructEvent string sample_webhook 1700000000000 "{}"
       "t=1700000000,v1=invalid_signature" "test_secret"
       {| tolerance := None |}
     = Throw (webhook_error "Signature verification failed")
  /\ @constructEvent string sample_webhook 1700000000000 "{}"
       (test_header 1700000000000 (Some (Num 1699999600))) "test_secret"
       {| tolerance := None |}
     = Throw (webhook_error "Timestamp outside tolerance window")
  /\ @constructEvent string sample_webhook 1700000000000 "{}"
       (test_header 1700000000000 (Some (Num 1699999600))) "test_secret"
       {| tolerance := Some (Num 500) |}
     = Return "{}".
Proof. repeat split. Qed.

(** A refresh whose network call fails surfaces as a connection error. *)
Example refresh_network_failure :
  refreshAccessToken no_token_endpoint "https://login.yotoplay.com" "client"
    "refresh" 30000
  = Throw (YotoConnectionError
             "Token refresh request failed: TypeError: fetch failed").
Proof. reflexivity. Qed.

End Runs.

(** * Properties *)

(** ** Strings and numbers *)

Module JSFacts.
Import JS.

Lemma split_free (sep : ascii) (s : string) :
  free_of sep s = true -> split sep s = [s].
Proof.
  unfold free_of.
  induction s as [|c s IH]; simpl; intros Hs.
  - reflexivity.
  - apply andb_prop in Hs. destruct Hs as [Hc Hs].
    apply negb_true_iff in Hc. rewrite Hc, (IH Hs). reflexivity.
Qed.

Lemma split_not_nil (sep : ascii) (s : string) : split sep s <> [].
Proof.
  destruct s as [|c s]; simpl.
  - discriminate.
  - destruct (Ascii.eqb c sep); [discriminate|].
    destruct (split sep s); discriminate.
Qed.

Lemma split_app (sep : ascii) (a b : string) :
  free_of sep a = true ->
  split sep (a ++ String sep b) = a :: split sep b.
Proof.
  unfold free_of.
  induction a as [|c a IH]; simpl; intros Ha.
  - rewrite Ascii.eqb_refl. reflexivity.
  - apply andb_prop in Ha. destruct Ha as [Hc Ha].
    apply negb_true_iff in Hc. rewrite Hc, (IH Ha). reflexivity.
Qed.

Lemma string_forall_app (f : ascii -> bool) (a b : string) :
  string_forall f (a ++ b) = string_forall f a && string_forall f b.
Proof.
  induction a as [|c a IH]; simpl.
  - reflexivity.
  - rewrite IH, andb_assoc. reflexivity.
Qed.

Lemma string_forall_impl (f g : ascii -> bool) (s : string) :
  (forall c, f c = true -> g c = true) ->
  string_forall f s = true -> string_forall g s = true.
Proof.
  intros Hfg. induction s as [|c s IH]; simpl; intros Hs.
  - reflexivity.
  - apply andb_prop in Hs. destruct Hs as [Hc Hs].
    rewrite (Hfg c Hc), (IH Hs). reflexivity.
Qed.

(** The digits written by the standard library's printer are read back by
    [digits_value]. *)
Lemma digits_value_step (c : ascii) (s : string) (acc k : Z) :
  is_digit c = true -> digit_value c = k ->
  digits_value (String c s) acc = digits_value s (10 * acc + k).
Proof. intros Hc Hk. simpl. rewrite Hc, Hk. reflexivity. Qed.

Ltac digit_step k :=
  cbn [NilEmpty.string_of_uint Pos.of_uint_acc Pos.of_uint];
  rewrite (digits_value_step _ _ _ k) by reflexivity.

Lemma digits_value_pos (d : Decimal.uint) (p : positive) :
  digits_value (NilEmpty.string_of_uint d) (Z.pos p)
  = Z.pos (Pos.of_uint_acc d p).
Proof.
  revert p.
  induction d; intros p;
    [ reflexivity
    | digit_step 0 | digit_step 1 | digit_step 2 | digit_step 3
    | digit_step 4 | digit_step 5 | digit_step 6 | digit_step 7
    | digit_step 8 | digit_step 9 ];
    rewrite <- IHd; f_equal; lia.
Qed.

Lemma digits_value_zero (d : Decimal.uint) :
  digits_value (NilEmpty.string_of_uint d) 0 = Z.of_N (Pos.of_uint d).
Proof.
  induction d;
    [ reflexivity
    | digit_step 0 | digit_step 1 | digit_step 2 | digit_step 3
    | digit_step 4 | digit_step 5 | digit_step 6 | digit_step 7
    | digit_step 8 | digit_step 9 ];
    try exact IHd; apply (digits_value_pos d).
Qed.

Lemma digits_all_digit (d : Decimal.uint) :
  string_forall is_digit (NilEmpty.string_of_uint d) = true.
Proof. induction d; simpl; auto. Qed.

Lemma to_uint_not_nil (p : positive) : Pos.to_uint p <> Decimal.Nil.
Proof.
  intros E. pose proof (DecimalPos.Unsigned.of_to p) as H.
  rewrite E in H. discriminate.
Qed.

Lemma starts_with_digit_uint (d : Decimal.uint) :
  d <> Decimal.Nil -> starts_with_digit (NilEmpty.string_of_uint d) = true.
Proof. destruct d; simpl; intros Hd; [now elim Hd | reflexivity ..]. Qed.

Lemma digit_not_space (c : ascii) : is_digit c = true -> is_space c = false.
Proof.
  unfold is_digit, is_space. set (n := nat_of_ascii c).
  intros Hc. apply andb_prop in Hc. destruct Hc as [H1 H2].
  apply Nat.leb_le in H1. apply Nat.leb_le in H2.
  assert (E1 : (n =? 32)%nat = false) by (apply Nat.eqb_neq; lia).
  assert (E2 : (n <=? 13)%nat = false) by (apply Nat.leb_gt; lia).
  rewrite E1, E2, andb_false_r. reflexivity.
Qed.

Lemma skip_spaces_digit (s : string) :
  starts_with_digit s = true -> skip_spaces s = s.
Proof.
  destruct s as [|c s]; simpl; [reflexivity|].
  intros Hc. rewrite (digit_not_space c Hc). reflexivity.
Qed.

Lemma starts_with_digit_not_sign (s : string) :
  starts_with_digit s = true ->
  match s with
  | String "-" r => (true, r)
  | String "+" r => (false, r)
  | _ => (false, s)
  end = (false, s).
Proof.
  destruct s as [|c s]; simpl; [reflexivity|].
  destruct c as [[|] [|] [|] [|] [|] [|] [|] [|]]; simpl;
    try reflexivity; discriminate.
Qed.

Lemma parseInt_digits (s : string) :
  starts_with_digit s = true -> parseInt s = Num (digits_value s 0).
Proof.
  intros Hs. unfold parseInt.
  rewrite (skip_spaces_digit s Hs), (starts_with_digit_not_sign s Hs), Hs.
  reflexivity.
Qed.

Lemma parseInt_minus_digits (s : string) :
  starts_with_digit s = true ->
  parseInt (String "-" s) = Num (- digits_value s 0).
Proof.
  intros Hs. unfold parseInt. simpl. rewrite Hs. reflexivity.
Qed.

(** [Number.parseInt(String(z), 10)] is [z]. *)
Lemma parseInt_String_of_Z (z : Z) : parseInt (String_of_Z z) = Num z.
Proof.
  unfold String_of_Z.
  destruct z as [|p|p]; [reflexivity| |]; simpl.
  - unfold NilZero.string_of_uint.
    pose proof (to_uint_not_nil p) as Hnil.
    destruct (Pos.to_uint p) eqn:E; [congruence| |..|]; rewrite <- E;
      rewrite parseInt_digits by (apply starts_with_digit_uint; congruence);
      rewrite digits_value_zero, DecimalPos.Unsigned.of_to; reflexivity.
  - unfold NilZero.string_of_uint.
    pose proof (to_uint_not_nil p) as Hnil.
    destruct (Pos.to_uint p) eqn:E; [congruence| |..|]; rewrite <- E;
      rewrite parseInt_minus_digits
        by (apply starts_with_digit_uint; congruence);
      rewrite digits_value_zero, DecimalPos.Unsigned.of_to; reflexivity.
Qed.

Lemma String_of_Z_chars (z : Z) :
  string_forall is_digit_or_minus (String_of_Z z) = true.
Proof.
  assert (Hu : forall d, string_forall is_digit_or_minus
                           (NilZero.string_of_uint d) = true).
  { intros d. unfold NilZero.string_of_uint.
    destruct d; try reflexivity;
      apply (string_forall_impl is_digit);
      try apply digits_all_digit;
      intros c Hc; unfold is_digit_or_minus; rewrite Hc; reflexivity. }
  unfold String_of_Z. destruct (Z.to_int z); simpl; auto.
Qed.

Lemma String_of_Z_free (sep : ascii) (z : Z) :
  is_digit_or_minus sep = false -> free_of sep (String_of_Z z) = true.
Proof.
  intros Hsep. unfold free_of.
  apply (string_forall_impl is_digit_or_minus); [|apply String_of_Z_chars].
  intros c Hc. apply negb_true_iff. apply Ascii.eqb_neq.
  intros ->. congruence.
Qed.

Lemma String_of_Z_truthy (z : Z) : truthy_string (String_of_Z z) = true.
Proof.
  unfold String_of_Z.
  destruct z as [|p|p]; [reflexivity| |]; simpl; [|reflexivity].
  unfold NilZero.string_of_uint.
  pose proof (to_uint_not_nil p) as Hnil.
  destruct (Pos.to_uint p); simpl; congruence.
Qed.

End JSFacts.

(** ** Construction of the client and retry delays *)

Module HttpClientFacts.
Import JS Errors Auth Http Samples.

(** C9. The constructor takes each default on a falsy value, not only on a
    missing one: [maxRetries = 0] gives 3, [timeout = 0] gives 30000 and
    [baseUrl = ""] gives the default base URL, exactly as when the field is
    absent; so a client configured with [maxRetries = 0] is the client
    configured with no [maxRetries] at all. *)
Theorem constructor_defaults_on_falsy
    (P : Type) (provider : P) (b : option string) (t m : option number) :
  maxRetries (new_HttpClient provider
                {| cfg_baseUrl := b; cfg_timeout := t;
                   cfg_maxRetries := Some (Num 0) |}) = 3
  /\ timeout (new_HttpClient provider
                {| cfg_baseUrl := b; cfg_timeout := Some (Num 0);
                   cfg_maxRetries := m |}) = 30000
  /\ baseUrl (new_HttpClient provider
                {| cfg_baseUrl := Some ""; cfg_timeout := t;
                   cfg_maxRetries := m |}) = "https://api.yotoplay.com"
  /\ new_HttpClient provider
       {| cfg_baseUrl := Some ""; cfg_timeout := Some (Num 0);
          cfg_maxRetries := Some (Num 0) |}
     = new_HttpClient provider
         {| cfg_baseUrl := None; cfg_timeout := None;
            cfg_maxRetries := None |}
  /\ maxRetries (new_HttpClient provider
                   {| cfg_baseUrl := b; cfg_timeout := t;
                      cfg_maxRetries := None |}) = DEFAULT_MAX_RETRIES.
Proof. repeat split. Qed.

Lemma backoffDelay_jitter (attempt : nat) (random : Q) :
  (0 <= random)%Q -> (random < 1)%Q ->
  exists j : Q,
    (0 <= j)%Q /\ (j < 1000)%Q
    /\ (backoffDelay attempt random
        == Qmin (1000 * inject_Z (2 ^ Z.of_nat attempt) + j) 10000)%Q.
Proof.
  intros H0 H1. exists (random * 1000)%Q. split; [|split].
  - apply Qmult_le_0_compat; [assumption | discriminate].
  - setoid_replace (1000 : Q) with (1 * 1000)%Q at 2 by reflexivity.
    apply Qmult_lt_compat_r; [reflexivity | assumption].
  - reflexivity.
Qed.

(** C7, as the code has it.  The delay slept after attempt [a] is
    [min(1000 * 2^a + j, 10000)] for a jitter [0 <= j < 1000], unless the
    error is a rate-limit error whose Retry-After value [r] is a non-zero
    integer, and then it is exactly [r * 1000]; a Retry-After of [0] (or one
    that does not parse) is treated as absent. *)
Theorem retry_delay_formula (a : nat) (e : error) (random : Q) :
  (0 <= random)%Q -> (random < 1)%Q ->
  (forall r, honoured_retry_after e = Some r ->
     (retryDelay a e random == inject_Z (r * 1000))%Q)
  /\ (honoured_retry_after e = None ->
      exists j : Q,
        (0 <= j)%Q /\ (j < 1000)%Q
        /\ (retryDelay a e random
            == Qmin (1000 * inject_Z (2 ^ Z.of_nat a) + j) 10000)%Q)
  /\ (forall r, r <> 0 ->
        (calculateRetryDelay a (Some (Num r)) random == inject_Z (r * 1000))%Q)
  /\ calculateRetryDelay a (Some (Num 0)) random
     = calculateRetryDelay a None random.
Proof.
  intros H0 H1. split; [|split; [|split]].
  - intros r Hr. unfold honoured_retry_after in Hr.
    destruct e as [| | |msg [[z|]|] c i u m|]; try discriminate.
    destruct (z =? 0) eqn:Ez; [discriminate|].
    injection Hr as <-. unfold retryDelay. simpl. rewrite Ez. reflexivity.
  - intros Hn.
    assert (E : retryDelay a e random = backoffDelay a random).
    { unfold honoured_retry_after in Hn. unfold retryDelay.
      destruct e as [| | |msg [[z|]|] c i u m|]; try reflexivity.
      simpl. destruct (z =? 0); [reflexivity | discriminate]. }
    rewrite E. apply backoffDelay_jitter; assumption.
  - intros r Hr. simpl.
    destruct (r =? 0) eqn:Ez; [apply Z.eqb_eq in Ez; contradiction|].
    reflexivity.
  - reflexivity.
Qed.

(** [retry_delay_formula] at attempt 2, with a Retry-After of 7 seconds. *)
Lemma retry_delay_formula_witness :
  (0 <= 1 # 2)%Q /\ (1 # 2 < 1)%Q
  /\ (retryDelay 2
        (YotoRateLimitError "Too Many Requests" (Some (Num 7)) None None
           None None) (1 # 2) == inject_Z (7 * 1000))%Q.
Proof.
  split; [discriminate | split; [reflexivity|]].
  apply (proj1 (retry_delay_formula 2
                  (YotoRateLimitError "Too Many Requests" (Some (Num 7))
                     None None None None) (1 # 2)
                  ltac:(discriminate) ltac:(reflexivity)) 7).
  reflexivity.
Defined.

(** C7 as stated fails for [Retry-After: 0]: the error carries the value 0,
    yet the delay after attempt 0 is 1500 ms (with a draw of 1/2), not 0. *)
Lemma retry_after_zero_is_not_exact :
  retryAfter_of (handleErrorResponse (retry_after_response "0") "u" "GET")
  = Some (Num 0)
  /\ (retryDelay 0 (handleErrorResponse (retry_after_response "0") "u" "GET")
        (1 # 2) == 1500)%Q
  /\ ~ (retryDelay 0
          (handleErrorResponse (retry_after_response "0") "u" "GET") (1 # 2)
        == inject_Z (0 * 1000))%Q.
Proof.
  split; [reflexivity | split; [reflexivity | discriminate]].
Qed.

End HttpClientFacts.

(** ** Token expiry and the auth providers *)

Module AuthFacts.
Import JS Errors Auth Samples.

Section Expiry.
Context `{JwtRuntime}.

(** The tokens [isTokenExpired] accepts: exactly those that decode to an
    object whose [exp] is a non-zero integer with
    [exp * 1000 >= now + 30000]. *)
Lemma isTokenExpired_false_iff (now : Z) (token : string) :
  isTokenExpired now token = false
  <-> exists e, decodeJWT token = Return (JwtObject (Some (Num e)))
                /\ e <> 0 /\ now + 30000 <= e * 1000.
Proof.
  unfold isTokenExpired. split.
  - destruct (decodeJWT token) as [[|[[e|]|]]|err]; simpl; try discriminate.
    destruct (e =? 0) eqn:Ee; simpl; [discriminate|].
    intros Hlt. exists e. split; [reflexivity|].
    apply Z.eqb_neq in Ee. apply Z.ltb_ge in Hlt. split; assumption.
  - intros (e & -> & Hne & Hle). simpl.
    apply Z.eqb_neq in Hne. rewrite Hne. simpl.
    apply Z.ltb_ge. assumption.
Qed.


(** A token that does not have exactly three segments cannot be decoded,
    whatever the platform. *)
Lemma decodeJWT_segments (token : string) :
  List.length (split "." token) <> 3%nat ->
  decodeJWT token
  = Throw (JsError "Error" "Failed to decode JWT: Error: Invalid JWT format").
Proof.
  intros Hn. unfold decodeJWT, decodeJWT_try.
  apply Nat.eqb_neq in Hn. rewrite Hn. reflexivity.
Qed.

(** C2, as the code has it.  A [StaticTokenProvider] returns its token
    without any expiry check or refresh.  A [RefreshableAuthProvider] returns
    the access token it holds only when [isTokenExpired] is false for it;
    when the held token is expired it refreshes first, stores the new pair
    and returns the new access token (which it does not check again), or
    throws the error of the refresh and keeps its state. *)
Theorem getAccessToken_policy (env : AuthEnv) :
  (forall s : StaticTokenProvider,
      getAccessToken env s = (Return (accessToken s), s))
  /\ (forall (r r' : RefreshableAuthProvider) (tok : string),
         getAccessToken env r = (Return tok, r') ->
         (isTokenExpired (env_now env) (access_token (tokens r)) = false
          /\ tok = access_token (tokens r) /\ r' = r)
         \/ (isTokenExpired (env_now env) (access_token (tokens r)) = true
             /\ exists t,
                 refreshAccessToken (env_token_endpoint env) (authBaseUrl r)
                   (clientId r) (refresh_token (tokens r)) (timeout r)
                 = Return t
                 /\ tok = access_token t /\ r' = set_tokens r t))
  /\ (forall r : RefreshableAuthProvider,
         isTokenExpired (env_now env) (access_token (tokens r)) = false ->
         getAccessToken env r = (Return (access_token (tokens r)), r))
  /\ (forall r : RefreshableAuthProvider,
         isTokenExpired (env_now env) (access_token (tokens r)) = true ->
         getAccessToken env r
         = match refreshAccessToken (env_token_endpoint env) (authBaseUrl r)
                   (clientId r) (refresh_token (tokens r)) (timeout r) with
           | Return t => (Return (access_token t), set_tokens r t)
           | Throw e => (Throw e, r)
           end).
Proof.
  repeat apply conj.
  - intros s. reflexivity.
  - intros r r' tok. simpl. unfold Refreshable_getAccessToken.
    destruct (isTokenExpired (env_now env) (access_token (tokens r))).
    + destruct (refreshAccessToken _ _ _ _ _) as [t|e]; [|discriminate].
      intros [= <- <-]. right. split; [reflexivity|].
      exists t. repeat split.
    + intros [= <- <-]. left. repeat split.
  - intros r He. simpl. unfold Refreshable_getAccessToken. rewrite He.
    reflexivity.
  - intros r He. simpl. unfold Refreshable_getAccessToken. rewrite He.
    destruct (refreshAccessToken _ _ _ _ _); reflexivity.
Qed.

End Expiry.


(** [getAccessToken_policy] for a provider holding an expired pair, when
    the token endpoint answers with a fresh one. *)
Lemma getAccessToken_policy_witness :
  @getAccessToken _ (@RefreshableAuthProvider_AuthProvider sample_jwt)
    refreshing_env (sample_refreshable expired_pair)
  = (Return "header.exp=1700003600.signature", sample_refreshable fresh_pair).
Proof.
  rewrite (proj2 (proj2 (proj2 (@getAccessToken_policy sample_jwt
                                  refreshing_env)))
             (sample_refreshable expired_pair) eq_refl).
  reflexivity.
Defined.

(** C2 as stated fails for the static provider: it hands out the token
    ["invalid.token"], which [isTokenExpired] rejects at any time. *)
Lemma static_provider_returns_expired_token :
  fst (getAccessToken sample_env {| accessToken := "invalid.token" |})
  = Return "invalid.token"
  /\ @isTokenExpired sample_jwt (env_now sample_env) "invalid.token" = true.
Proof. split; reflexivity. Qed.

End AuthFacts.

(** ** The retry loop *)

Module RequestFacts.
Import JS Errors Auth Http Samples.

Lemma count_app (f : event -> bool) (a b : list event) :
  count f (a ++ b) = (count f a + count f b)%nat.
Proof. unfold count. rewrite filter_app, length_app. reflexivity. Qed.

Section Loop.
Context {P : Type} `{AuthProvider P} {T : Type}.

Variable this : HttpClient P.
Variables url method : string.
Variable world : nat -> AttemptWorld T.

(** One iteration does not sleep, and issues at most one [fetch]. *)
Lemma attempt_body_events (attempt : nat) (p : P) :
  let evs := snd (fst (attempt_body url method attempt (world attempt) p)) in
  count is_sleep evs = 0%nat /\ count is_attempt evs = 1%nat
  /\ (count is_fetch evs <= 1)%nat.
Proof.
  unfold attempt_body.
  destruct (getAccessToken (auth_env (world attempt)) p) as [[tok|e] p'];
    [|simpl; auto].
  destruct (fetched (world attempt)) as [e|r]; [simpl; auto|].
  destruct (negb (ok r)); [simpl; auto|].
  destruct (json_data r); simpl; auto.
Qed.

(** An authentication or connection error ends the loop at once. *)
Lemma request_loop_rethrows (fuel attempt : nat) (lastError : option error)
    (p p' : P) (tr evs : list event) (e : error) :
  Z.of_nat attempt <= maxRetries this ->
  attempt_body url method attempt (world attempt) p = (Throw e, evs, p') ->
  instanceof_YotoAuthenticationError e || instanceof_YotoConnectionError e
  = true ->
  request_loop (S fuel) this url method world attempt lastError p tr
  = Some {| result := Throw e; trace := tr ++ evs; provider := p' |}.
Proof.
  intros Hle Hbody He. simpl.
  apply Z.leb_le in Hle. rewrite Hle, Hbody, He. reflexivity.
Qed.

(** Any other error is retried after a sleep while [attempt < maxRetries]. *)
Lemma request_loop_retries (fuel attempt : nat) (lastError : option error)
    (p p' : P) (tr evs : list event) (e : error) :
  Z.of_nat attempt < maxRetries this ->
  attempt_body url method attempt (world attempt) p = (Throw e, evs, p') ->
  instanceof_YotoAuthenticationError e || instanceof_YotoConnectionError e
  = false ->
  request_loop (S fuel) this url method world attempt lastError p tr
  = request_loop fuel this url method world (S attempt) (Some e) p'
      (tr ++ evs ++ [EvSleep (retryDelay attempt e (random (world attempt)))]).
Proof.
  intros Hlt Hbody He. simpl.
  assert (Hle : (Z.of_nat attempt <=? maxRetries this) = true)
    by (apply Z.leb_le; lia).
  apply Z.ltb_lt in Hlt. rewrite Hle, Hbody, He, Hlt. reflexivity.
Qed.

(** ... and is thrown when [attempt = maxRetries]. *)
Lemma request_loop_gives_up (fuel attempt : nat) (lastError : option error)
    (p p' : P) (tr evs : list event) (e : error) :
  Z.of_nat attempt = maxRetries this ->
  attempt_body url method attempt (world attempt) p = (Throw e, evs, p') ->
  instanceof_YotoAuthenticationError e || instanceof_YotoConnectionError e
  = false ->
  request_loop (S fuel) this url method world attempt lastError p tr
  = Some {| result := Throw e; trace := tr ++ evs; provider := p' |}.
Proof.
  intros Heq Hbody He. simpl.
  assert (Hle : (Z.of_nat attempt <=? maxRetries this) = true)
    by (apply Z.leb_le; lia).
  assert (Hlt : (Z.of_nat attempt <? maxRetries this) = false)
    by (apply Z.ltb_ge; lia).
  rewrite Hle, Hbody, He, Hlt. reflexivity.
Qed.

(** The loop always ends within its fuel. *)
Lemma request_loop_total (fuel attempt : nat) (lastError : option error)
    (p : P) (tr : list event) :
  (Z.to_nat (maxRetries this + 1 - Z.of_nat attempt) < fuel)%nat ->
  exists run,
    request_loop fuel this url method world attempt lastError p tr = Some run.
Proof.
  revert attempt lastError p tr.
  induction fuel as [|fuel IH]; intros attempt lastError p tr Hfuel; [lia|].
  simpl.
  destruct (Z.of_nat attempt <=? maxRetries this) eqn:Hle; [|eauto].
  apply Z.leb_le in Hle.
  destruct (attempt_body url method attempt (world attempt) p)
    as [[[data|e] evs] p']; [eauto|].
  destruct (instanceof_YotoAuthenticationError e
            || instanceof_YotoConnectionError e); [eauto|].
  destruct (Z.of_nat attempt <? maxRetries this) eqn:Hlt; [|eauto].
  apply IH. lia.
Qed.




End Loop.

Section Request.
Context {P : Type} `{AuthProvider P} {T : Type} `{UrlRuntime}.

(** [request] always produces a result: the fuel of the loop is enough. *)
Lemma request_total (this : HttpClient P) (path : string)
    (options : RequestOptions) (world : nat -> AttemptWorld T) :
  exists run, request this path options world = Some run.
Proof.
  unfold request.
  destruct (buildUrl this path (opt_query options)) as [url|e]; [|eauto].
  apply request_loop_total. unfold request_fuel. lia.
Qed.



(** C1, as the code has it.  At any iteration of the loop, an error that is
    a [YotoConnectionError] ends [request] at once: it is thrown with the
    events of that iteration only, which contain no sleep.  A failure of the
    pipeline's own [fetch] (a network error, a timeout abort) is not a
    [YotoConnectionError]: while [attempt < maxRetries] the loop sleeps for
    the backoff delay and goes on to the next attempt. *)
Theorem connection_error_policy
    (fuel : nat) (this : HttpClient P) (url method : string)
    (world : nat -> AttemptWorld T) (attempt : nat)
    (lastError : option error) (p p' : P) (tr : list event) :
  (forall (e : error) (evs : list event),
      Z.of_nat attempt <= maxRetries this ->
      attempt_body url method attempt (world attempt) p = (Throw e, evs, p') ->
      instanceof_YotoConnectionError e = true ->
      request_loop (S fuel) this url method world attempt lastError p tr
      = Some {| result := Throw e; trace := tr ++ evs; provider := p' |}
      /\ count is_sleep evs = 0%nat
      /\ count is_attempt evs = 1%nat)
  /\ (forall (tok name message : string),
         Z.of_nat attempt < maxRetries this ->
         getAccessToken (auth_env (world attempt)) p = (Return tok, p') ->
         fetched (world attempt) = FetchFails (JsError name message) ->
         request_loop (S fuel) this url method world attempt lastError p tr
         = request_loop fuel this url method world (S attempt)
             (Some (JsError name message)) p'
             (tr ++ [EvAttempt attempt; EvFetch attempt url method;
                     EvSleep (backoffDelay attempt
                                (random (world attempt)))])).
Proof.
  split.
  - intros e evs Hle Hbody He. split.
    + apply request_loop_rethrows; [assumption | assumption |].
      rewrite He. apply orb_true_r.
    + pose proof (attempt_body_events url method world attempt p) as Hev.
      rewrite Hbody in Hev. simpl in Hev. tauto.
  - intros tok name message Hlt Htok Hfetch.
    rewrite (request_loop_retries this url method world fuel attempt
               lastError p p' tr
               [EvAttempt attempt; EvFetch attempt url method]
               (JsError name message) Hlt).
    + reflexivity.
    + unfold attempt_body. rewrite Htok, Hfetch. reflexivity.
    + reflexivity.
Qed.

End Request.




(** [connection_error_policy] when the provider's refresh cannot reach the
    token endpoint. *)
Lemma connection_error_policy_witness :
  @request_loop RefreshableAuthProvider
    (@RefreshableAuthProvider_AuthProvider sample_jwt) string 4
    (new_HttpClient (sample_refreshable expired_pair) default_config)
    "https://api.yotoplay.com/content" "GET" (always 200 "OK") 0 None
    (sample_refreshable expired_pair) []
  = Some {| result := Throw (YotoConnectionError
             "Token refresh request failed: TypeError: fetch failed");
            trace := [EvAttempt 0];
            provider := sample_refreshable expired_pair |}.
Proof.
  apply (proj1 (@connection_error_policy RefreshableAuthProvider
                  (@RefreshableAuthProvider_AuthProvider sample_jwt) string
                  3 (new_HttpClient (sample_refreshable expired_pair)
                       default_config)
                  "https://api.yotoplay.com/content" "GET" (always 200 "OK")
                  0 None (sample_refreshable expired_pair)
                  (sample_refreshable expired_pair) [])
          (YotoConnectionError
             "Token refresh request failed: TypeError: fetch failed")
          [EvAttempt 0]);
    [discriminate | reflexivity | reflexivity].
Defined.

(** C1 as stated fails for the pipeline's own [fetch]: with the default
    three retries, a first [fetch] aborted by the timeout is followed by a
    sleep and a second [fetch], and the call returns. *)
Lemma fetch_abort_is_retried :
  exists run,
    @request StaticTokenProvider _ string sample_url
      (new_HttpClient sample_provider default_config) "/content"
      get_options abort_then_ok = Some run
    /\ result run = Return "{}"
    /\ result run <> Throw (JsError "AbortError" "aborted")
    /\ count is_fetch (trace run) = 2%nat
    /\ count is_sleep (trace run) = 1%nat.
Proof.
  eexists. split; [reflexivity|].
  repeat split; try reflexivity. discriminate.
Qed.

End RequestFacts.

(** ** Webhook verification *)

Module WebhookFacts.
Import JS Errors Webhooks Samples JSFacts.

Lemma secureCompare_refl (s : string) : secureCompare s s = true.
Proof.
  unfold secureCompare. rewrite Nat.eqb_refl, String.eqb_refl. reflexivity.
Qed.

Lemma hex_digest_free (sep : ascii) (s : string) :
  is_hex_char sep = false -> hex_digest s = true -> free_of sep s = true.
Proof.
  intros Hsep Hs. unfold hex_digest in Hs.
  apply andb_prop in Hs. destruct Hs as [_ Hs].
  unfold free_of. apply (string_forall_impl is_hex_char); [|exact Hs].
  intros c Hc. apply negb_true_iff. apply Ascii.eqb_neq.
  intros ->. congruence.
Qed.

Lemma hex_digest_truthy (s : string) :
  hex_digest s = true -> truthy_string s = true.
Proof. destruct s; [discriminate | reflexivity]. Qed.

(** A header [t=<ts>,v1=<sig>] is read back as [ts] and [sig] when neither
    contains a comma or an equals sign. *)
Lemma parse_header_generated (ts sig : string) :
  free_of "," ts = true -> free_of "=" ts = true ->
  free_of "," sig = true -> free_of "=" sig = true ->
  parse_header ("t=" ++ ts ++ ",v1=" ++ sig) = (Some ts, Some sig).
Proof.
  intros Hts1 Hts2 Hs1 Hs2. unfold parse_header.
  change ("t=" ++ ts ++ ",v1=" ++ sig)
    with (String "t" (String "=" (ts ++ String "," ("v1=" ++ sig)))).
  change (String "t" (String "=" (ts ++ String "," ("v1=" ++ sig))))
    with (("t=" ++ ts) ++ String "," ("v1=" ++ sig)).
  rewrite split_app by exact Hts1.
  rewrite (split_free "," ("v1=" ++ sig)) by exact Hs1.
  cbn [fold_left]. unfold parse_part at 2.
  change ("t=" ++ ts) with (String "t" (String "=" ts)).
  cbn [split Ascii.eqb Bool.eqb]. rewrite (split_free "=" ts Hts2).
  cbn [nth_error fst snd]. unfold parse_part.
  change ("v1=" ++ sig) with (String "v" (String "1" (String "=" sig))).
  cbn [split Ascii.eqb Bool.eqb]. rewrite (split_free "=" sig Hs2).
  reflexivity.
Qed.

Section Verify.
Context {Event : Type} `{WebhookRuntime Event}.

(** What [constructEvent] does once the header has given a non-empty [t]
    and a non-empty [v1]. *)
Lemma constructEvent_parsed (now : Z) (payload signature secret : string)
    (options : ConstructEventOptions) (timestamp provided : string) :
  parse_header signature = (Some timestamp, Some provided) ->
  truthy_string timestamp = true ->
  truthy_string provided = true ->
  constructEvent now payload signature secret options
  = if gt (sub (Num (floor_seconds now)) (parseInt timestamp))
          (nullish (tolerance options) (Num TIMESTAMP_TOLERANCE))
    then Throw (webhook_error "Timestamp outside tolerance window")
    else if negb (secureCompare (computeSignature timestamp payload secret)
                    provided)
         then Throw (webhook_error "Signature verification failed")
         else match JSON_parse payload with
              | Some event => Return event
              | None => Throw (webhook_error "Invalid JSON payload")
              end.
Proof.
  intros Hparse Ht Hp. unfold constructEvent.
  destruct signature as [|c s]; [discriminate|].
  cbn [truthy_string negb]. rewrite Hparse, Ht, Hp. reflexivity.
Qed.

(** A header made by [generateTestHeaderString] at one time and verified at
    another passes the format check and the signature check; only the
    tolerance check and the parsing of the payload remain. *)
Lemma constructEvent_generated (now_sign now_verify : Z)
    (payloadString secret : string) (payload : string + Event)
    (options : ConstructEventOptions) :
  match payload with
  | inl s => s
  | inr obj => JSON_stringify obj
  end = payloadString ->
  hex_digest (computeSignature (String_of_Z (floor_seconds now_sign))
                payloadString secret) = true ->
  constructEvent now_verify payloadString
    (generateTestHeaderString now_sign
       {| th_payload := payload; th_secret := secret;
          th_timestamp := None |})
    secret options
  = if gt (sub (Num (floor_seconds now_verify)) (Num (floor_seconds now_sign)))
          (nullish (tolerance options) (Num TIMESTAMP_TOLERANCE))
    then Throw (webhook_error "Timestamp outside tolerance window")
    else match JSON_parse payloadString with
         | Some event => Return event
         | None => Throw (webhook_error "Invalid JSON payload")
         end.
Proof.
  intros Hpayload Hhex. unfold generateTestHeaderString.
  cbn [th_payload th_secret th_timestamp or_number]. rewrite Hpayload.
  rewrite (constructEvent_parsed now_verify payloadString _ secret options
             (String_of_Z (floor_seconds now_sign))
             (computeSignature (String_of_Z (floor_seconds now_sign))
                payloadString secret)).
  - rewrite parseInt_String_of_Z, secureCompare_refl. reflexivity.
  - apply parse_header_generated.
    + apply String_of_Z_free. reflexivity.
    + apply String_of_Z_free. reflexivity.
    + apply hex_digest_free; [reflexivity | exact Hhex].
    + apply hex_digest_free; [reflexivity | exact Hhex].
  - apply String_of_Z_truthy.
  - apply hex_digest_truthy. exact Hhex.
Qed.

(** C4.  For a payload [ev] that JSON can carry (parsing its text gives it
    back), any secret and any time: the header generated for the text of
    [ev], from the text or from the object, is accepted by [constructEvent]
    at that time, which returns [ev].  The digest is assumed to have the
    shape of a SHA-256 hex digest. *)
Theorem constructEvent_accepts_generated_header
    (ev : Event) (secret : string) (now : Z) :
  JSON_parse (JSON_stringify ev) = Some ev ->
  hex_digest (computeSignature (String_of_Z (floor_seconds now))
                (JSON_stringify ev) secret) = true ->
  constructEvent now (JSON_stringify ev)
    (generateTestHeaderString now
       {| th_payload := inl (JSON_stringify ev); th_secret := secret;
          th_timestamp := None |})
    secret {| tolerance := None |} = Return ev
  /\ constructEvent now (JSON_stringify ev)
       (generateTestHeaderString now
          {| th_payload := inr ev; th_secret := secret;
             th_timestamp := None |})
       secret {| tolerance := None |} = Return ev.
Proof.
  intros Hjson Hhex.
  split; rewrite (constructEvent_generated now now (JSON_stringify ev))
    by (reflexivity || exact Hhex);
    cbn [tolerance nullish sub gt]; rewrite Z.sub_diag, Hjson; reflexivity.
Qed.



End Verify.

(** [constructEvent_accepts_generated_header] for the event [{}]. *)
Lemma constructEvent_accepts_generated_header_witness :
  @constructEvent string sample_webhook 1700000000123 "{}"
    (@generateTestHeaderString string sample_webhook 1700000000123
       {| th_payload := inl "{}"; th_secret := "whsec";
          th_timestamp := None |})
    "whsec" {| tolerance := None |} = Return "{}".
Proof.
  apply (proj1 (@constructEvent_accepts_generated_header string
                  sample_webhook "{}" "whsec" 1700000000123
                  eq_refl eq_refl)).
Defined.



End WebhookFacts.

(** ** The retry loop, continued *)

Module RequestMoreFacts.
Import JS Errors Auth Http HttpMore Samples RequestFacts.

Section Loop.
Context {P : Type} `{AuthProvider P} {T : Type}.

Variable this : HttpClient P.
Variables url method : string.
Variable world : nat -> AttemptWorld T.

Lemma attempt_body_throws (attempt : nat) (w : AttemptWorld T) (e : error)
    (p : P) :
  token_available w ->
  attempt_error url method w = Some e ->
  exists p',
    attempt_body url method attempt w p
    = (Throw e, [EvAttempt attempt; EvFetch attempt url method], p').
Proof.
  intros Htok He. destruct (Htok p) as (tok & p' & Hp). exists p'.
  unfold attempt_body. rewrite Hp. unfold attempt_error in He.
  destruct (fetched w) as [e'|r]; [injection He as <-; reflexivity|].
  destruct (negb (ok r)); [injection He as <-; reflexivity|].
  destruct (json_data r); [discriminate | injection He as <-; reflexivity].
Qed.

Lemma attempt_body_returns (attempt : nat) (w : AttemptWorld T) (data : T)
    (p : P) :
  token_available w ->
  attempt_data w = Some data ->
  exists p',
    attempt_body url method attempt w p
    = (Return data, [EvAttempt attempt; EvFetch attempt url method], p').
Proof.
  intros Htok Hd. destruct (Htok p) as (tok & p' & Hp). exists p'.
  unfold attempt_body. rewrite Hp. unfold attempt_data in Hd.
  destruct (fetched w) as [e'|r]; [discriminate|].
  destruct (negb (ok r)); [discriminate|].
  destruct (json_data r); [injection Hd as <-; reflexivity | discriminate].
Qed.

(** From attempt [a], when the [n] attempts before attempt [a + n] all end
    in an error that is retried, the loop reaches attempt [a + n] after [n]
    fetches and [n] sleeps. *)
Lemma request_loop_skips (e : nat -> error) :
  forall (n a : nat),
    Z.of_nat (a + n) <= maxRetries this ->
    (forall k, (a <= k < a + n)%nat ->
       token_available (world k)
       /\ attempt_error url method (world k) = Some (e k)
       /\ retried (e k) = true) ->
    forall (fuel : nat) (lastError : option error) (p : P) (tr : list event),
    exists lastError' p' tr',
      request_loop (n + fuel) this url method world a lastError p tr
      = request_loop fuel this url method world (a + n) lastError' p' tr'
      /\ count is_fetch tr' = (count is_fetch tr + n)%nat
      /\ count is_sleep tr' = (count is_sleep tr + n)%nat
      /\ count is_attempt tr' = (count is_attempt tr + n)%nat.
Proof.
  induction n as [|n IH]; intros a Hle Hworld fuel lastError p tr.
  - exists lastError, p, tr. rewrite Nat.add_0_r.
    split; [reflexivity | repeat split; lia].
  - destruct (Hworld a ltac:(lia)) as (Htok & Herr & Hret).
    destruct (attempt_body_throws a (world a) (e a) p Htok Herr)
      as (p1 & Hbody).
    unfold retried in Hret. apply negb_true_iff in Hret.
    cbn [Nat.add].
    rewrite (request_loop_retries this url method world (n + fuel) a
               lastError p p1 tr _ _ ltac:(lia) Hbody Hret).
    destruct (IH (S a) ltac:(lia)
                (fun k Hk => Hworld k ltac:(lia)) fuel (Some (e a)) p1
                (tr ++ [EvAttempt a; EvFetch a url method]
                    ++ [EvSleep (retryDelay a (e a) (random (world a)))])%list)
      as (le' & p' & tr' & Hloop & Hf & Hs & Ha).
    exists le', p', tr'. rewrite Hloop.
    replace (a + S n)%nat with (S a + n)%nat by lia.
    split; [reflexivity|].
    rewrite Hf, Hs, Ha, !count_app. unfold count. simpl.
    repeat split; lia.
Qed.

(** Every result of the loop extends the trace it started from: by nothing
    when the loop is not entered, and otherwise by at most one attempt per
    remaining iteration, at most one fetch per attempt, and exactly one sleep
    between two attempts. *)
Lemma request_loop_bounds :
  forall (fuel attempt : nat) (lastError : option error) (p : P)
         (tr : list event) (run : Run P T),
    request_loop fuel this url method world attempt lastError p tr = Some run ->
    exists evs,
      trace run = (tr ++ evs)%list
      /\ (count is_fetch evs <= count is_attempt evs)%nat
      /\ (count is_attempt evs
          <= Z.to_nat (maxRetries this + 1 - Z.of_nat attempt))%nat
      /\ (Z.of_nat attempt <= maxRetries this ->
          count is_attempt evs = S (count is_sleep evs))
      /\ (maxRetries this < Z.of_nat attempt -> evs = []).
Proof.
  induction fuel as [|fuel IH]; intros attempt lastError p tr run Hrun;
    [discriminate|].
  simpl in Hrun.
  destruct (Z.of_nat attempt <=? maxRetries this) eqn:Hle.
  2:{ apply Z.leb_gt in Hle. injection Hrun as <-. exists []. simpl.
      rewrite app_nil_r. unfold count. simpl. repeat split; lia. }
  apply Z.leb_le in Hle.
  pose proof (attempt_body_events url method world attempt p) as Hev.
  destruct (attempt_body url method attempt (world attempt) p)
    as [[[data|e] evs] p'] eqn:Hbody; simpl in Hev;
    destruct Hev as (Hs0 & Ha1 & Hf1).
  - injection Hrun as <-. exists evs. simpl. repeat split; lia.
  - destruct (instanceof_YotoAuthenticationError e
              || instanceof_YotoConnectionError e).
    { injection Hrun as <-. exists evs. simpl. repeat split; lia. }
    destruct (Z.of_nat attempt <? maxRetries this) eqn:Hlt.
    2:{ injection Hrun as <-. exists evs. simpl. repeat split; lia. }
    apply Z.ltb_lt in Hlt.
    apply IH in Hrun. destruct Hrun as (evs' & Htr & Hf & Ha & Hrel & _).
    exists (evs ++ [EvSleep (retryDelay attempt e (random (world attempt)))]
                ++ evs')%list.
    split; [rewrite Htr, <- !app_assoc; reflexivity|].
    rewrite !count_app.
    change (count is_fetch [EvSleep _]) with 0%nat.
    change (count is_attempt [EvSleep _]) with 0%nat.
    change (count is_sleep [EvSleep _]) with 1%nat.
    specialize (Hrel ltac:(lia)).
    repeat split; lia.
Qed.

Lemma request_loop_returns (fuel attempt : nat) (lastError : option error)
    (p p' : P) (tr evs : list event) (data : T) :
  Z.of_nat attempt <= maxRetries this ->
  attempt_body url method attempt (world attempt) p = (Return data, evs, p') ->
  request_loop (S fuel) this url method world attempt lastError p tr
  = Some {| result := Return data; trace := tr ++ evs; provider := p' |}.
Proof.
  intros Hle Hbody. simpl.
  apply Z.leb_le in Hle. rewrite Hle, Hbody. reflexivity.
Qed.

End Loop.

Section Request.
Context {P : Type} `{AuthProvider P} {T : Type} `{UrlRuntime}.

(** X1.  Whatever the world does, [request] makes at most [maxRetries + 1]
    attempts, at most one fetch per attempt and at most [maxRetries] sleeps,
    and it sleeps exactly once between two attempts. *)
Theorem request_attempts_are_bounded
    (this : HttpClient P) (path : string) (options : RequestOptions)
    (world : nat -> AttemptWorld T) (run : Run P T) :
  request this path options world = Some run ->
  (count is_fetch (trace run) <= count is_attempt (trace run))%nat
  /\ (count is_attempt (trace run) <= Z.to_nat (maxRetries this + 1))%nat
  /\ (count is_sleep (trace run) <= Z.to_nat (maxRetries this))%nat
  /\ (count is_attempt (trace run) = 0%nat
      \/ count is_attempt (trace run) = S (count is_sleep (trace run))).
Proof.
  unfold request.
  destruct (buildUrl this path (opt_query options)) as [url|e].
  2:{ intros [= <-]. unfold count. simpl. repeat split; lia. }
  intros Hrun. apply request_loop_bounds in Hrun.
  destruct Hrun as (evs & Htr & Hf & Ha & Hin & Hout).
  simpl in Htr. rewrite Htr. simpl in Ha.
  destruct (Z.le_gt_cases 0 (maxRetries this)) as [Hle | Hlt].
  - specialize (Hin Hle). repeat split; lia.
  - rewrite (Hout Hlt). unfold count. simpl. repeat split; lia.
Qed.

(** X2.  When every attempt ends in an error that is neither an
    authentication nor a connection error (a rejected fetch, a non-2xx
    response other than 401, a 2xx body that does not parse), [request]
    makes exactly [maxRetries + 1] fetches and [maxRetries] sleeps and then
    throws the error of the last attempt. *)
Theorem persistent_failure_exhausts_retries
    (this : HttpClient P) (path : string) (options : RequestOptions)
    (world : nat -> AttemptWorld T) (url : string) (e : nat -> error) :
  0 <= maxRetries this ->
  buildUrl this path (opt_query options) = Return url ->
  (forall k, (k <= Z.to_nat (maxRetries this))%nat ->
     token_available (world k)
     /\ attempt_error url (request_method options) (world k) = Some (e k)
     /\ retried (e k) = true) ->
  exists run,
    request this path options world = Some run
    /\ result run = Throw (e (Z.to_nat (maxRetries this)))
    /\ count is_fetch (trace run) = S (Z.to_nat (maxRetries this))
    /\ count is_sleep (trace run) = Z.to_nat (maxRetries this).
Proof.
  intros Hle Hurl Hworld. unfold request. rewrite Hurl.
  set (M := Z.to_nat (maxRetries this)) in *.
  replace (request_fuel this) with (M + 2)%nat
    by (unfold request_fuel, M; lia).
  destruct (request_loop_skips this url (request_method options) world e
              M 0%nat ltac:(lia) (fun k Hk => Hworld k ltac:(lia))
              2%nat None (authProvider this) [])
    as (le' & p' & tr' & Hloop & Hf & Hs & _).
  rewrite Hloop. cbn [Nat.add].
  destruct (Hworld M ltac:(lia)) as (Htok & Herr & Hret).
  destruct (attempt_body_throws url (request_method options) M (world M)
              (e M) p' Htok Herr) as (p1 & Hbody).
  unfold retried in Hret. apply negb_true_iff in Hret.
  rewrite (request_loop_gives_up this url (request_method options) world
             1 M le' p' p1 tr' _ _ ltac:(lia) Hbody Hret).
  eexists. split; [reflexivity|]. cbn [result trace].
  rewrite !count_app, Hf, Hs. unfold count. simpl.
  repeat split; lia.
Qed.

(** X3.  When the first [k] attempts end in retried errors and attempt [k],
    with [k <= maxRetries], gets a 2xx response whose body parses, [request]
    returns that body after exactly [k + 1] fetches and [k] sleeps. *)
Theorem request_recovers_after_failures
    (this : HttpClient P) (path : string) (options : RequestOptions)
    (world : nat -> AttemptWorld T) (url : string) (e : nat -> error)
    (k : nat) (data : T) :
  Z.of_nat k <= maxRetries this ->
  buildUrl this path (opt_query options) = Return url ->
  (forall i, (i < k)%nat ->
     token_available (world i)
     /\ attempt_error url (request_method options) (world i) = Some (e i)
     /\ retried (e i) = true) ->
  token_available (world k) ->
  attempt_data (world k) = Some data ->
  exists run,
    request this path options world = Some run
    /\ result run = Return data
    /\ count is_fetch (trace run) = S k
    /\ count is_sleep (trace run) = k.
Proof.
  intros Hle Hurl Hworld Htok Hdata. unfold request. rewrite Hurl.
  replace (request_fuel this)
    with (k + S (Z.to_nat (maxRetries this + 1) - k))%nat
    by (unfold request_fuel; lia).
  destruct (request_loop_skips this url (request_method options) world e
              k 0%nat ltac:(lia) (fun i Hi => Hworld i ltac:(lia))
              (S (Z.to_nat (maxRetries this + 1) - k)) None
              (authProvider this) [])
    as (le' & p' & tr' & Hloop & Hf & Hs & _).
  rewrite Hloop. cbn [Nat.add].
  destruct (attempt_body_returns url (request_method options) k (world k)
              data p' Htok Hdata) as (p1 & Hbody).
  rewrite (request_loop_returns this url (request_method options) world
             _ k le' p' p1 tr' _ data Hle Hbody).
  eexists. split; [reflexivity|]. cbn [result trace].
  rewrite !count_app, Hf, Hs. unfold count. simpl.
  repeat split; lia.
Qed.

(** X4.  A 2xx response without a JSON body (a 204, say) does not end the
    call: when every attempt gets one, the [SyntaxError] of [response.json()]
    is retried like a failure, the request is sent [maxRetries + 1] times and
    the last parse error is thrown. *)
Theorem success_without_json_body_is_retried
    (this : HttpClient P) (path : string) (options : RequestOptions)
    (world : nat -> AttemptWorld T) (url : string)
    (r : nat -> Response T) (name message : nat -> string) :
  0 <= maxRetries this ->
  buildUrl this path (opt_query options) = Return url ->
  (forall k, (k <= Z.to_nat (maxRetries this))%nat ->
     token_available (world k)
     /\ fetched (world k) = FetchResolves (r k)
     /\ ok (r k) = true
     /\ json_data (r k) = Throw (JsError (name k) (message k))) ->
  exists run,
    request this path options world = Some run
    /\ result run
       = Throw (JsError (name (Z.to_nat (maxRetries this)))
                  (message (Z.to_nat (maxRetries this))))
    /\ count is_fetch (trace run) = S (Z.to_nat (maxRetries this))
    /\ count is_sleep (trace run) = Z.to_nat (maxRetries this).
Proof.
  intros Hle Hurl Hworld. unfold request. rewrite Hurl.
  set (M := Z.to_nat (maxRetries this)) in *.
  set (e := fun k => JsError (name k) (message k)).
  assert (Hw : forall k, (k <= M)%nat ->
               token_available (world k)
               /\ attempt_error url (request_method options) (world k)
                  = Some (e k)
               /\ retried (e k) = true).
  { intros k Hk. destruct (Hworld k Hk) as (Htok & Hfetch & Hok & Hjson).
    split; [exact Htok|]. split; [|reflexivity].
    unfold attempt_error. rewrite Hfetch, Hok, Hjson. reflexivity. }
  replace (request_fuel this) with (M + 2)%nat
    by (unfold request_fuel, M; lia).
  destruct (request_loop_skips this url (request_method options) world e
              M 0%nat ltac:(lia) (fun k Hk => Hw k ltac:(lia))
              2%nat None (authProvider this) [])
    as (le' & p' & tr' & Hloop & Hf & Hs & _).
  rewrite Hloop. cbn [Nat.add].
  destruct (Hw M ltac:(lia)) as (Htok & Herr & Hret).
  destruct (attempt_body_throws url (request_method options) M (world M)
              (e M) p' Htok Herr) as (p1 & Hbody).
  rewrite (request_loop_gives_up this url (request_method options) world
             1 M le' p' p1 tr' _ _ ltac:(lia) Hbody eq_refl).
  eexists. split; [reflexivity|]. cbn [result trace].
  rewrite !count_app, Hf, Hs. unfold count. simpl.
  repeat split; lia.
Qed.

(** X5.  A client whose [maxRetries] is negative never enters the loop:
    [request] makes no attempt at all and throws the connection error
    "Request failed after retries". *)
Theorem negative_maxRetries_makes_no_attempt
    (this : HttpClient P) (path : string) (options : RequestOptions)
    (world : nat -> AttemptWorld T) (url : string) :
  maxRetries this < 0 ->
  buildUrl this path (opt_query options) = Return url ->
  request this path options world
  = Some {| result := Throw (YotoConnectionError
                               "Request failed after retries");
            trace := []; provider := authProvider this |}.
Proof.
  intros Hneg Hurl. unfold request, request_fuel. rewrite Hurl. simpl.
  replace (0 <=? maxRetries this) with false
    by (symmetry; apply Z.leb_gt; exact Hneg).
  reflexivity.
Qed.

End Request.

Lemma static_token_available (w : AttemptWorld string) :
  @token_available StaticTokenProvider _ string w.
Proof. intros p. exists (accessToken p), p. reflexivity. Qed.

(** [request_attempts_are_bounded] for a server that always answers 500. *)
Lemma request_attempts_are_bounded_witness :
  exists run,
    @request StaticTokenProvider _ string sample_url
      (new_HttpClient sample_provider default_config) "/content"
      get_options (always 500 "Internal Server Error") = Some run
    /\ (count is_attempt (trace run) <= 4)%nat
    /\ (count is_sleep (trace run) <= 3)%nat.
Proof.
  eexists. split; [reflexivity|].
  pose proof (@request_attempts_are_bounded StaticTokenProvider _ string
                sample_url (new_HttpClient sample_provider default_config)
                "/content" get_options (always 500 "Internal Server Error")
                _ eq_refl) as (_ & Ha & Hs & _).
  split; [exact Ha | exact Hs].
Defined.

(** [persistent_failure_exhausts_retries] for a server that always answers
    500, with the default three retries. *)
Lemma persistent_failure_exhausts_retries_witness :
  exists run,
    @request StaticTokenProvider _ string sample_url
      (new_HttpClient sample_provider default_config) "/content"
      get_options (always 500 "Internal Server Error") = Some run
    /\ result run
       = Throw (YotoAPIError "Internal Server Error" 500 None None None
                  (Some "https://api.yotoplay.com/content") (Some "GET"))
    /\ count is_fetch (trace run) = 4%nat
    /\ count is_sleep (trace run) = 3%nat.
Proof.
  apply (@persistent_failure_exhausts_retries StaticTokenProvider _ string
           sample_url (new_HttpClient sample_provider default_config)
           "/content" get_options (always 500 "Internal Server Error")
           "https://api.yotoplay.com/content"
           (fun _ => YotoAPIError "Internal Server Error" 500 None None None
                       (Some "https://api.yotoplay.com/content")
                       (Some "GET"))).
  - discriminate.
  - reflexivity.
  - intros k _. split; [apply static_token_available|].
    split; reflexivity.
Defined.

(** [request_recovers_after_failures] when the first fetch is aborted and
    the second one succeeds. *)
Lemma request_recovers_after_failures_witness :
  exists run,
    @request StaticTokenProvider _ string sample_url
      (new_HttpClient sample_provider default_config) "/content"
      get_options abort_then_ok = Some run
    /\ result run = Return "{}"
    /\ count is_fetch (trace run) = 2%nat
    /\ count is_sleep (trace run) = 1%nat.
Proof.
  apply (@request_recovers_after_failures StaticTokenProvider _ string
           sample_url (new_HttpClient sample_provider default_config)
           "/content" get_options abort_then_ok
           "https://api.yotoplay.com/content"
           (fun _ => JsError "AbortError" "aborted") 1 "{}").
  - discriminate.
  - reflexivity.
  - intros i Hi. assert (i = 0%nat) by lia. subst i.
    split; [apply static_token_available|]. split; reflexivity.
  - apply static_token_available.
  - reflexivity.
Defined.

(** [success_without_json_body_is_retried] for a server that always answers
    204 with an empty body. *)
Lemma success_without_json_body_is_retried_witness :
  exists run,
    @request StaticTokenProvider _ string sample_url
      (new_HttpClient sample_provider default_config) "/content/abc"
      {| opt_method := Some DELETE; opt_query := None |}
      (always 204 "No Content") = Some run
    /\ result run
       = Throw (JsError "SyntaxError" "Unexpected end of JSON input")
    /\ count is_fetch (trace run) = 4%nat
    /\ count is_sleep (trace run) = 3%nat.
Proof.
  apply (@success_without_json_body_is_retried StaticTokenProvider _ string
           sample_url (new_HttpClient sample_provider default_config)
           "/content/abc" {| opt_method := Some DELETE; opt_query := None |}
           (always 204 "No Content") "https://api.yotoplay.com/content/abc"
           (fun _ => sample_response 204 "No Content" (Throw no_json))
           (fun _ => "SyntaxError")
           (fun _ => "Unexpected end of JSON input")).
  - discriminate.
  - reflexivity.
  - intros k _. split; [apply static_token_available|].
    repeat split.
Defined.

(** [negative_maxRetries_makes_no_attempt] for [maxRetries = -1]. *)
Lemma negative_maxRetries_makes_no_attempt_witness :
  @request StaticTokenProvider _ string sample_url
    (new_HttpClient sample_provider (config_maxRetries (-1))) "/content"
    get_options (always 200 "OK")
  = Some {| result := Throw (YotoConnectionError
                               "Request failed after retries");
            trace := []; provider := sample_provider |}.
Proof.
  apply (@negative_maxRetries_makes_no_attempt StaticTokenProvider _ string
           sample_url (new_HttpClient sample_provider (config_maxRetries (-1)))
           "/content" get_options (always 200 "OK")
           "https://api.yotoplay.com/content");
    reflexivity.
Defined.

End RequestMoreFacts.

(** ** Delays, error responses, query strings and headers *)

Module HttpMoreFacts.
Import JS Errors Auth Http HttpMore Samples.

Lemma pow2_ge_1 (a : nat) : 1 <= 2 ^ Z.of_nat a.
Proof.
  pose proof (Z.pow_pos_nonneg 2 (Z.of_nat a) ltac:(lia) ltac:(lia)). lia.
Qed.

Lemma pow2_le_8 (a : nat) : (a <= 3)%nat -> 2 ^ Z.of_nat a <= 8.
Proof.
  intros Ha. change 8 with (2 ^ 3).
  apply Z.pow_le_mono_r; lia.
Qed.

Lemma pow2_ge_16 (a : nat) : (4 <= a)%nat -> 16 <= 2 ^ Z.of_nat a.
Proof.
  intros Ha. change 16 with (2 ^ 4).
  apply Z.pow_le_mono_r; lia.
Qed.

(** X6.  With a draw of [Math.random()] in [0, 1), the backoff delay after
    attempt [a] lies between 1000 and 10000 ms; it is exactly
    [1000 * 2^a + 1000 * random] for the attempts 0 to 3, and exactly the cap
    of 10000 ms from attempt 4 on. *)
Theorem backoff_delay_bounds (a : nat) (random : Q) :
  (0 <= random)%Q -> (random < 1)%Q ->
  (1000 <= backoffDelay a random)%Q
  /\ (backoffDelay a random <= 10000)%Q
  /\ ((a <= 3)%nat ->
      (backoffDelay a random
       == 1000 * inject_Z (2 ^ Z.of_nat a) + random * 1000)%Q)
  /\ ((4 <= a)%nat -> (backoffDelay a random == 10000)%Q).
Proof.
  intros H0 H1. unfold backoffDelay.
  pose proof (pow2_ge_1 a) as Hp1.
  rewrite Zle_Qle in Hp1.
  set (x := inject_Z (2 ^ Z.of_nat a)) in *.
  change (inject_Z 1) with 1%Q in Hp1.
  destruct (Q.min_spec (1000 * x + random * 1000) 10000)
    as [[Hlt Hmin] | [Hle Hmin]]; rewrite Hmin.
  - repeat split; try lra.
    intros Ha. apply pow2_ge_16 in Ha.
    rewrite Zle_Qle in Ha. fold x in Ha.
    change (inject_Z 16) with 16%Q in Ha. lra.
  - repeat split; try lra.
    intros Ha. apply pow2_le_8 in Ha.
    rewrite Zle_Qle in Ha. fold x in Ha.
    change (inject_Z 8) with 8%Q in Ha. lra.
Qed.

(** [backoff_delay_bounds] after attempt 5, with a draw of 1/2. *)
Lemma backoff_delay_bounds_witness :
  (0 <= 1 # 2)%Q /\ (1 # 2 < 1)%Q /\ (backoffDelay 5 (1 # 2) == 10000)%Q.
Proof.
  split; [discriminate | split; [reflexivity|]].
  apply (proj2 (proj2 (proj2 (backoff_delay_bounds 5 (1 # 2)
                                ltac:(discriminate) ltac:(reflexivity))))).
  lia.
Defined.

Section ErrorResponse.
Context {T : Type}.

Lemma error_message_not_empty (r : Response T) : error_message r <> "".
Proof.
  unfold error_message, or_string.
  destruct (option_map err_message (error_detail r)) as [[|c m]|]; simpl;
    destruct (statusText r); simpl; discriminate.
Qed.

(** X7.  The error built from a non-2xx response always carries the status
    of the response, a non-empty message, and the URL and method of the
    request.  It is an authentication error exactly for status 401 and a
    rate-limit error exactly for status 429, never a connection error; so it
    is retried exactly when the status is not 401. *)
Theorem handleErrorResponse_classification
    (r : Response T) (url method : string) :
  statusCode (handleErrorResponse r url method) = Some (status r)
  /\ message_of (handleErrorResponse r url method) <> ""
  /\ url_of (handleErrorResponse r url method) = Some url
  /\ method_of (handleErrorResponse r url method) = Some method
  /\ instanceof_YotoAuthenticationError (handleErrorResponse r url method)
     = (status r =? 401)
  /\ instanceof_YotoRateLimitError (handleErrorResponse r url method)
     = (status r =? 429)
  /\ instanceof_YotoConnectionError (handleErrorResponse r url method) = false
  /\ retried (handleErrorResponse r url method) = negb (status r =? 401).
Proof.
  pose proof (error_message_not_empty r) as Hm.
  unfold handleErrorResponse, retried.
  destruct (status r =? 401) eqn:E401.
  - apply Z.eqb_eq in E401. rewrite E401. simpl. repeat split; assumption.
  - destruct (status r =? 429) eqn:E429.
    + apply Z.eqb_eq in E429. rewrite E429. simpl. repeat split; assumption.
    + simpl. repeat split; assumption.
Qed.

End ErrorResponse.

(** X8.  The query string gets exactly the entries whose value is defined,
    in their order, each converted with [String]: a pair is appended if and
    only if it comes from such an entry, and an entry whose value is
    [undefined] adds nothing. *)
Theorem query_pairs_omits_undefined
    (q : list (string * option query_value)) :
  (forall k s, In (k, s) (query_pairs q)
               <-> exists v, In (k, Some v) q /\ s = String_of_query_value v)
  /\ List.length (query_pairs q)
     = List.length (filter (fun kv => match snd kv with
                                      | Some _ => true
                                      | None => false
                                      end) q)
  /\ (forall (q1 q2 : list (string * option query_value)) (k : string),
        q = (q1 ++ (k, None) :: q2)%list ->
        forall (RT : UrlRuntime) (P : Type) (this : HttpClient P)
               (path : string),
          buildUrl this path (Some q) = buildUrl this path (Some (q1 ++ q2)%list)).
Proof.
  split; [|split].
  - induction q as [|[k' [v'|]] q IH]; intros k s; simpl.
    + split; [tauto | intros (v & [] & _)].
    + rewrite IH. split.
      * intros [[= <- <-] | (v & Hin & ->)]; [exists v' | exists v]; auto.
      * intros (v & [[= <- <-] | Hin] & ->); [left | right; exists v]; auto.
    + rewrite IH. split.
      * intros (v & Hin & ->). exists v. auto.
      * intros (v & [[=] | Hin] & ->). exists v. auto.
  - induction q as [|[k' [v'|]] q IH]; simpl; congruence.
  - intros q1 q2 k -> RT P this path. unfold buildUrl. f_equal.
    induction q1 as [|[k1 [v1|]] q1 IH]; simpl; try reflexivity.
    + f_equal. exact IH.
    + exact IH.
Qed.

(** [query_pairs_omits_undefined] for the query of
    [MediaResource.uploadCoverImage] with an undefined entry in between. *)
Lemma query_pairs_omits_undefined_witness :
  @buildUrl sample_url _ (new_HttpClient sample_provider default_config)
    "/media/coverImage/user/me/upload"
    (Some [("autoconvert", Some (QBoolean true)); ("skip", None);
           ("coverType", Some (QString "default"))])
  = @buildUrl sample_url _ (new_HttpClient sample_provider default_config)
      "/media/coverImage/user/me/upload"
      (Some [("autoconvert", Some (QBoolean true));
             ("coverType", Some (QString "default"))]).
Proof.
  apply (proj2 (proj2 (query_pairs_omits_undefined
                         [("autoconvert", Some (QBoolean true));
                          ("skip", None);
                          ("coverType", Some (QString "default"))]))
           [("autoconvert", Some (QBoolean true))]
           [("coverType", Some (QString "default"))] "skip" eq_refl).
Defined.















End HttpMoreFacts.

(** ** Webhook verification, continued *)

Module WebhookMoreFacts.
Import JS Errors Webhooks Samples MoreSamples JSFacts WebhookFacts.

Lemma secureCompare_eq (a b : string) : secureCompare a b = true -> a = b.
Proof.
  unfold secureCompare.
  destruct (Nat.eqb (String.length a) (String.length b)); simpl;
    [apply String.eqb_eq | discriminate].
Qed.


Lemma split_app_sep (sep : ascii) (a b : string) :
  split sep (a ++ String sep b) = (split sep a ++ split sep b)%list.
Proof.
  induction a as [|c a IH]; simpl.
  - rewrite Ascii.eqb_refl. reflexivity.
  - rewrite IH. destruct (Ascii.eqb c sep); [reflexivity|].
    destruct (split sep a) as [|p ps] eqn:E; [|reflexivity].
    exfalso. exact (split_not_nil sep a E).
Qed.

Lemma split_parts_free (c sep : ascii) (s : string) :
  free_of c s = true ->
  Forall (fun part => free_of c part = true) (split sep s).
Proof.
  unfold free_of. induction s as [|x s IH]; simpl; intros Hs.
  - repeat constructor.
  - apply andb_prop in Hs. destruct Hs as [Hx Hs]. specialize (IH Hs).
    destruct (Ascii.eqb x sep).
    + constructor; [reflexivity | exact IH].
    + destruct (split sep s) as [|p ps].
      * repeat constructor. simpl. rewrite Hx. reflexivity.
      * inversion IH as [|? ? Hp Hps]; subst.
        constructor; [simpl; rewrite Hx, Hp; reflexivity | exact Hps].
Qed.

Lemma parse_part_without_equals (acc : option string * option string)
    (part : string) :
  free_of "=" part = true -> acc = (None, None) ->
  parse_part acc part = (None, None).
Proof.
  intros Hfree ->. unfold parse_part.
  rewrite (split_free "=" part Hfree). cbn [nth_error fst snd].
  destruct part as [|c1 [|c2 [|c3 r]]]; try reflexivity.
  - destruct (Ascii.eqb c1 "t") eqn:E.
    + apply Ascii.eqb_eq in E. subst. reflexivity.
    + destruct c1 as [[|] [|] [|] [|] [|] [|] [|] [|]];
        try reflexivity; discriminate.
  - destruct c1 as [[|] [|] [|] [|] [|] [|] [|] [|]]; try reflexivity;
      destruct c2 as [[|] [|] [|] [|] [|] [|] [|] [|]]; reflexivity.
  - destruct c1 as [[|] [|] [|] [|] [|] [|] [|] [|]]; try reflexivity;
      destruct c2 as [[|] [|] [|] [|] [|] [|] [|] [|]]; reflexivity.
Qed.

Lemma parse_header_without_equals (signature : string) :
  free_of "=" signature = true -> parse_header signature = (None, None).
Proof.
  intros Hfree. unfold parse_header.
  pose proof (split_parts_free "=" "," signature Hfree) as Hparts.
  generalize (eq_refl (@None string, @None string)).
  generalize (@None string, @None string) at 1 3 as acc.
  induction Hparts as [|part parts Hpart _ IH]; intros acc Hacc; simpl.
  - exact Hacc.
  - apply IH. apply parse_part_without_equals; assumption.
Qed.

Section Verify.
Context {Event : Type} `{WebhookRuntime Event}.

(** X11.  [constructEvent] returns an event only for a verified payload:
    the header gave a [t] and a [v1], [v1] is the HMAC of ["<t>.<payload>"]
    under the secret, the event is the parsed payload, and a [t] that reads
    as an integer is not older than the tolerance. *)
Theorem constructEvent_returns_only_verified
    (now : Z) (payload signature secret : string)
    (options : ConstructEventOptions) (ev : Event) :
  constructEvent now payload signature secret options = Return ev ->
  exists timestamp provided,
    parse_header signature = (Some timestamp, Some provided)
    /\ provided = computeSignature timestamp payload secret
    /\ JSON_parse payload = Some ev
    /\ (forall ts tol,
          parseInt timestamp = Num ts ->
          nullish (tolerance options) (Num TIMESTAMP_TOLERANCE) = Num tol ->
          floor_seconds now - ts <= tol).
Proof.
  unfold constructEvent.
  destruct (negb (truthy_string signature)); [discriminate|].
  destruct (parse_header signature) as [[timestamp|] [provided|]];
    try discriminate.
  destruct (negb (truthy_string timestamp)
            || negb (truthy_string provided)); [discriminate|].
  destruct (gt _ _) eqn:Hgt; [discriminate|].
  destruct (negb (secureCompare _ _)) eqn:Hcmp; [discriminate|].
  destruct (JSON_parse payload) as [ev'|]; [|discriminate].
  intros [= <-]. exists timestamp, provided.
  apply negb_false_iff in Hcmp. apply secureCompare_eq in Hcmp.
  repeat split; auto.
  intros ts tol Hts Htol. rewrite Hts, Htol in Hgt. simpl in Hgt.
  apply Z.ltb_ge in Hgt. exact Hgt.
Qed.


(** X13.  A header without any [=] is never accepted: the empty header is
    answered with "No signature provided", every other one with "Invalid
    signature format"; and so are a header with only a [t] entry and one
    with only a [v1] entry. *)
Theorem malformed_header_is_rejected
    (now : Z) (payload secret : string) (options : ConstructEventOptions) :
  (forall signature,
      free_of "=" signature = true ->
      constructEvent now payload signature secret options
      = Throw (webhook_error
                 (if truthy_string signature then "Invalid signature format"
                  else "No signature provided")))
  /\ (forall value,
         free_of "," value = true -> free_of "=" value = true ->
         constructEvent now payload ("t=" ++ value) secret options
         = Throw (webhook_error "Invalid signature format")
         /\ constructEvent now payload ("v1=" ++ value) secret options
            = Throw (webhook_error "Invalid signature format")).
Proof.
  split.
  - intros signature Hfree. unfold constructEvent.
    destruct signature as [|c s]; [reflexivity|].
    cbn [truthy_string negb].
    rewrite (parse_header_without_equals _ Hfree). reflexivity.
  - intros value Hcomma Hequals. unfold constructEvent, parse_header.
    cbn [append truthy_string negb].
    split.
    + change (String "t" (String "=" value)) with ("t=" ++ value).
      rewrite (split_free "," ("t=" ++ value)) by exact Hcomma.
      cbn [fold_left append]. unfold parse_part.
      cbn [split Ascii.eqb Bool.eqb]. rewrite (split_free "=" value Hequals).
      reflexivity.
    + change (String "v" (String "1" (String "=" value)))
        with ("v1=" ++ value).
      rewrite (split_free "," ("v1=" ++ value)) by exact Hcomma.
      cbn [fold_left append]. unfold parse_part.
      cbn [split Ascii.eqb Bool.eqb]. rewrite (split_free "=" value Hequals).
      reflexivity.
Qed.


End Verify.

Lemma parse_part_t (acc : option string * option string) (value : string) :
  free_of "=" value = true ->
  parse_part acc ("t=" ++ value) = (Some value, snd acc).
Proof.
  intros Hequals. unfold parse_part.
  change ("t=" ++ value) with (String "t" (String "=" value)).
  cbn [split Ascii.eqb Bool.eqb]. rewrite (split_free "=" value Hequals).
  reflexivity.
Qed.

Lemma parse_part_v1 (acc : option string * option string) (value : string) :
  free_of "=" value = true ->
  parse_part acc ("v1=" ++ value) = (fst acc, Some value).
Proof.
  intros Hequals. unfold parse_part.
  change ("v1=" ++ value) with (String "v" (String "1" (String "=" value))).
  cbn [split Ascii.eqb Bool.eqb]. rewrite (split_free "=" value Hequals).
  reflexivity.
Qed.

(** X14.  When a header has several [t] or several [v1] entries, the last
    one wins: appending [,t=<ts>] replaces the timestamp and leaves the
    signature, appending [,v1=<sig>] replaces the signature and leaves the
    timestamp. *)
Theorem last_header_entry_wins (header value : string) :
  free_of "," value = true ->
  free_of "=" value = true ->
  parse_header (header ++ ",t=" ++ value)
  = (Some value, snd (parse_header header))
  /\ parse_header (header ++ ",v1=" ++ value)
     = (fst (parse_header header), Some value).
Proof.
  intros Hcomma Hequals. unfold parse_header.
  change (",t=" ++ value) with (String "," ("t=" ++ value)).
  change (",v1=" ++ value) with (String "," ("v1=" ++ value)).
  rewrite !split_app_sep, !fold_left_app.
  rewrite (split_free "," ("t=" ++ value)) by exact Hcomma.
  rewrite (split_free "," ("v1=" ++ value)) by exact Hcomma.
  cbn [fold_left].
  rewrite (parse_part_t _ value Hequals), (parse_part_v1 _ value Hequals).
  split; reflexivity.
Qed.

(** [last_header_entry_wins] for a header with a second timestamp. *)
Lemma last_header_entry_wins_witness :
  parse_header ("t=1,v1=ab" ++ ",t=" ++ "2") = (Some "2", Some "ab").
Proof.
  apply (proj1 (last_header_entry_wins "t=1,v1=ab" "2" eq_refl eq_refl)).
Defined.

(** [constructEvent_returns_only_verified] for a generated header. *)
Lemma constructEvent_returns_only_verified_witness :
  exists timestamp provided,
    parse_header (test_header_at 1700000000000)
    = (Some timestamp, Some provided)
    /\ provided = @computeSignature string sample_webhook timestamp "{}"
                    "test_secret"
    /\ @JSON_parse string sample_webhook "{}" = Some "{}"
    /\ (forall ts tol,
          parseInt timestamp = Num ts ->
          nullish None (Num TIMESTAMP_TOLERANCE) = Num tol ->
          floor_seconds 1700000000000 - ts <= tol).
Proof.
  apply (@constructEvent_returns_only_verified string sample_webhook
           1700000000000 "{}" (test_header_at 1700000000000) "test_secret"
           {| tolerance := None |} "{}" eq_refl).
Defined.


(** [malformed_header_is_rejected] for a header that is one bare word. *)
Lemma malformed_header_is_rejected_witness :
  @constructEvent string sample_webhook 1700000000000 "{}" "signature"
    "test_secret" {| tolerance := None |}
  = Throw (webhook_error "Invalid signature format").
Proof.
  apply (proj1 (@malformed_header_is_rejected string sample_webhook
                  1700000000000 "{}" "test_secret" {| tolerance := None |})
           "signature" eq_refl).
Defined.


End WebhookMoreFacts.

(** ** Tokens and providers, continued *)

Module AuthMoreFacts.
Import JS Errors Auth Samples MoreSamples AuthFacts.

Section Expiry.
Context `{JwtRuntime}.

(** X16.  Expiry is monotone in time: a token that [isTokenExpired] rejects
    at one time is rejected at every later time. *)
Theorem expired_token_stays_expired (now later : Z) (token : string) :
  now <= later ->
  isTokenExpired now token = true ->
  isTokenExpired later token = true.
Proof.
  intros Hle Hexp. apply not_false_is_true. intros Hvalid.
  apply isTokenExpired_false_iff in Hvalid.
  destruct Hvalid as (e & Hd & Hne & Hbound).
  assert (Hnow : isTokenExpired now token = false).
  { apply isTokenExpired_false_iff. exists e. repeat split; auto. lia. }
  congruence.
Qed.

(** X17.  [decodeJWT] only ever throws a plain [Error] whose message starts
    with "Failed to decode JWT: "; and a token that does not have exactly
    three dot-separated segments, or whose middle segment is empty, is
    refused as "Invalid JWT format" without the platform being asked. *)
Theorem decodeJWT_failures (token : string) :
  (forall e, decodeJWT token = Throw e ->
             exists detail,
               e = JsError "Error" ("Failed to decode JWT: " ++ detail))
  /\ (List.length (split "." token) <> 3%nat
      \/ nth_error (split "." token) 1 = Some "" ->
      decodeJWT token
      = Throw (JsError "Error"
                 "Failed to decode JWT: Error: Invalid JWT format")).
Proof.
  split.
  - intros e. unfold decodeJWT.
    destruct (decodeJWT_try token) as [d|e']; [discriminate|].
    intros [= <-]. eexists. reflexivity.
  - intros Hbad. unfold decodeJWT, decodeJWT_try.
    destruct (Nat.eqb (List.length (split "." token)) 3) eqn:E;
      cbn [negb]; [|reflexivity].
    destruct Hbad as [Hlen | Hmid].
    + apply Nat.eqb_eq in E. contradiction.
    + rewrite Hmid. reflexivity.
Qed.

End Expiry.

Lemma refreshAccessToken_throws_fatal
    (fetch : TokenEndpoint) (authBaseUrl clientId refreshToken : string)
    (timeout : Z) (e : error) :
  refreshAccessToken fetch authBaseUrl clientId refreshToken timeout = Throw e ->
  instanceof_YotoAuthenticationError e || instanceof_YotoConnectionError e
  = true.
Proof.
  unfold refreshAccessToken.
  match goal with |- context [fetch ?r] => destruct (fetch r) as [e0|response] end.
  - destruct (instanceof_YotoAuthenticationError e0) eqn:E;
      intros [= <-]; [rewrite E|]; reflexivity.
  - destruct (tok_ok response); simpl; [|intros [= <-]; reflexivity].
    destruct (tok_json response) as [d|e0]; [discriminate|].
    destruct (instanceof_YotoAuthenticationError e0) eqn:E;
      intros [= <-]; [rewrite E|]; reflexivity.
Qed.

(** X18.  [refreshAccessToken] returns a token pair only when the token
    endpoint answered 2xx with a readable body, and then returns that body;
    a non-2xx answer is an authentication error quoting the response text;
    and whatever else goes wrong, the error thrown is an authentication or a
    connection error, never anything else. *)
Theorem refreshAccessToken_outcomes
    (fetch : TokenEndpoint) (authBaseUrl clientId refreshToken : string)
    (timeout : Z) :
  let req := {| treq_url := authBaseUrl ++ "/oauth/token";
                treq_body := [("grant_type", "refresh_token");
                              ("client_id", clientId);
                              ("refresh_token", refreshToken)];
                treq_timeout := timeout |} in
  let out := refreshAccessToken fetch authBaseUrl clientId refreshToken
               timeout in
  (forall t, out = Return t <->
             exists response,
               fetch req = FetchResolves response
               /\ tok_ok response = true /\ tok_json response = Return t)
  /\ (forall response,
        fetch req = FetchResolves response -> tok_ok response = false ->
        out = Throw (YotoAuthenticationError
                       ("Token refresh failed: " ++ tok_text response)
                       None None None None))
  /\ (forall e, out = Throw e ->
                instanceof_YotoAuthenticationError e
                || instanceof_YotoConnectionError e = true).
Proof.
  intros req out. unfold out, refreshAccessToken. fold req.
  split; [|split].
  - intros t. split.
    + destruct (fetch req) as [e|response].
      * destruct (instanceof_YotoAuthenticationError e); discriminate.
      * destruct (tok_ok response) eqn:Eok; simpl; [|discriminate].
        destruct (tok_json response) as [d|e] eqn:Ej.
        -- intros [= <-]. exists response. repeat split; assumption.
        -- destruct (instanceof_YotoAuthenticationError e); discriminate.
    + intros (response & -> & -> & ->). reflexivity.
  - intros response -> ->. reflexivity.
  - intros e. apply refreshAccessToken_throws_fatal.
Qed.

(** [refreshAccessToken_outcomes] when the token endpoint rejects the
    refresh token. *)
Lemma refreshAccessToken_outcomes_witness :
  refreshAccessToken rejecting_endpoint "https://login.yotoplay.com" "client"
    "invalid_refresh" 30000
  = Throw (YotoAuthenticationError "Token refresh failed: invalid_grant"
             None None None None).
Proof.
  apply (proj1 (proj2 (refreshAccessToken_outcomes rejecting_endpoint
                         "https://login.yotoplay.com" "client"
                         "invalid_refresh" 30000))
           {| tok_ok := false; tok_text := "invalid_grant";
              tok_json := Throw (JsError "SyntaxError" "Unexpected token") |}
           eq_refl eq_refl).
Defined.

Section Providers.
Context `{JwtRuntime}.

(** X19.  After a refresh, the provider serves the new access token from
    its slot: a later call, at a time when the new token is not expired,
    returns it and leaves the provider unchanged, whatever the token endpoint
    would answer. *)
Theorem refreshed_token_is_reused
    (env1 env2 : AuthEnv) (r : RefreshableAuthProvider) (t : TokenResponse) :
  isTokenExpired (env_now env1) (access_token (tokens r)) = true ->
  refreshAccessToken (env_token_endpoint env1) (authBaseUrl r) (clientId r)
    (refresh_token (tokens r)) (timeout r) = Return t ->
  isTokenExpired (env_now env2) (access_token t) = false ->
  getAccessToken env1 r = (Return (access_token t), set_tokens r t)
  /\ getAccessToken env2 (snd (getAccessToken env1 r))
     = (Return (access_token t), set_tokens r t).
Proof.
  intros Hexp Href Hfresh.
  assert (E : getAccessToken env1 r
              = (Return (access_token t), set_tokens r t)).
  { simpl. unfold Refreshable_getAccessToken. rewrite Hexp, Href.
    reflexivity. }
  split; [exact E|]. rewrite E. simpl.
  unfold Refreshable_getAccessToken. simpl. rewrite Hfresh. reflexivity.
Qed.

End Providers.

(** [expired_token_stays_expired] for a token that expired long ago. *)
Lemma expired_token_stays_expired_witness :
  @isTokenExpired sample_jwt 1700000000000 "header.exp=1.signature" = true.
Proof.
  apply (@expired_token_stays_expired sample_jwt 1000 1700000000000
           "header.exp=1.signature"); [lia | reflexivity].
Defined.

(** [decodeJWT_failures] for the malformed token of the repository's
    test. *)
Lemma decodeJWT_failures_witness :
  @decodeJWT sample_jwt "invalid.token"
  = Throw (JsError "Error" "Failed to decode JWT: Error: Invalid JWT format").
Proof.
  apply (proj2 (@decodeJWT_failures sample_jwt "invalid.token")).
  left. discriminate.
Defined.

(** [refreshed_token_is_reused] for a provider holding an expired pair. *)
Lemma refreshed_token_is_reused_witness :
  @getAccessToken _ (@RefreshableAuthProvider_AuthProvider sample_jwt)
    sample_env
    (snd (@getAccessToken _ (@RefreshableAuthProvider_AuthProvider sample_jwt)
            refreshing_env (sample_refreshable expired_pair)))
  = (Return "header.exp=1700003600.signature",
     set_tokens (sample_refreshable expired_pair) fresh_pair).
Proof.
  apply (proj2 (@refreshed_token_is_reused sample_jwt refreshing_env
                  sample_env (sample_refreshable expired_pair) fresh_pair
                  eq_refl eq_refl eq_refl)).
Defined.

End AuthMoreFacts.

(** ** Providers inside the request pipeline *)

Module ProviderRequestFacts.
Import JS Errors Auth Http HttpMore Samples RequestFacts AuthMoreFacts.

Section Request.
Context `{JwtRuntime} `{UrlRuntime} {T : Type}.

(** X20.  When the provider holds an expired token and the refresh fails,
    for whatever reason, [request] sends nothing to the API: it throws the
    error of the refresh after the first attempt, without a fetch, a sleep
    or a retry, and the provider keeps its token pair. *)
Theorem failed_refresh_ends_request
    (this : HttpClient RefreshableAuthProvider) (path : string)
    (options : RequestOptions) (world : nat -> AttemptWorld T)
    (url : string) (e : error) :
  0 <= maxRetries this ->
  buildUrl this path (opt_query options) = Return url ->
  isTokenExpired (env_now (auth_env (world 0%nat)))
    (access_token (tokens (authProvider this))) = true ->
  refreshAccessToken (env_token_endpoint (auth_env (world 0%nat)))
    (authBaseUrl (authProvider this)) (clientId (authProvider this))
    (refresh_token (tokens (authProvider this)))
    (Auth.timeout (authProvider this)) = Throw e ->
  request this path options world
  = Some {| result := Throw e; trace := [EvAttempt 0];
            provider := authProvider this |}.
Proof.
  intros Hle Hurl Hexp Href. unfold request. rewrite Hurl.
  unfold request_fuel.
  apply (request_loop_rethrows this url (request_method options) world
           _ 0 None (authProvider this) (authProvider this) []
           [EvAttempt 0] e Hle).
  - unfold attempt_body. simpl. unfold Refreshable_getAccessToken.
    rewrite Hexp, Href. reflexivity.
  - exact (refreshAccessToken_throws_fatal _ _ _ _ _ _ Href).
Qed.

End Request.

(** [failed_refresh_ends_request] when the token endpoint cannot be
    reached. *)
Lemma failed_refresh_ends_request_witness :
  @request RefreshableAuthProvider
    (@RefreshableAuthProvider_AuthProvider sample_jwt) string sample_url
    (new_HttpClient (sample_refreshable expired_pair) default_config)
    "/content" get_options (always 200 "OK")
  = Some {| result := Throw (YotoConnectionError
                               "Token refresh request failed: TypeError: fetch failed");
            trace := [EvAttempt 0];
            provider := sample_refreshable expired_pair |}.
Proof.
  apply (@failed_refresh_ends_request sample_jwt sample_url string
           (new_HttpClient (sample_refreshable expired_pair) default_config)
           "/content" get_options (always 200 "OK")
           "https://api.yotoplay.com/content");
    [discriminate | reflexivity | reflexivity | reflexivity].
Defined.

End ProviderRequestFacts.

(** ** The device code flow *)

Module DeviceFlowFacts.
Import JS Errors Auth DeviceFlow Samples MoreSamples.

Lemma poll_once_pending (answer : fetch_result PollResponse) (ms : Z) :
  oauth_error_of answer = Some "authorization_pending" ->
  poll_once answer ms = PollContinue ms.
Proof.
  unfold oauth_error_of, poll_once.
  destruct answer as [e|r]; [discriminate|].
  destruct (poll_ok r); [discriminate|].
  destruct (poll_status r =? 403); [|discriminate].
  destruct (poll_json_error r) as [d|e]; [|discriminate].
  intros ->. reflexivity.
Qed.

Lemma poll_once_slow_down (answer : fetch_result PollResponse) (ms : Z) :
  oauth_error_of answer = Some "slow_down" ->
  poll_once answer ms = PollContinue (ms + 5000).
Proof.
  unfold oauth_error_of, poll_once.
  destruct answer as [e|r]; [discriminate|].
  destruct (poll_ok r); [discriminate|].
  destruct (poll_status r =? 403); [|discriminate].
  destruct (poll_json_error r) as [d|e]; [|discriminate].
  intros ->. reflexivity.
Qed.

Section Polling.
Variable this : YotoDeviceAuth.
Variable deviceCode : string.
Variable world : PollWorld.

(** The wait before the poll after poll [k], for a first interval of
    [base] ms. *)
Let wait (base : Z) (k : nat) : Z :=
  base + 5000 * Z.of_nat (slow_downs this deviceCode world (S k)).

Lemma poll_once_waiting (base : Z) (k : nat) :
  keeps_waiting this deviceCode world k ->
  poll_once (world k (poll_request this deviceCode))
    (base + 5000 * Z.of_nat (slow_downs this deviceCode world k))
  = PollContinue (wait base k).
Proof.
  unfold wait. cbn [slow_downs]. intros [Hp | Hs].
  - rewrite (poll_once_pending _ _ Hp), Hp. f_equal. lia.
  - rewrite (poll_once_slow_down _ _ Hs), Hs. f_equal. lia.
Qed.

(** While the polls are answered with [authorization_pending] or
    [slow_down], the loop goes on, sleeping the interval raised by 5 s per
    [slow_down] so far. *)
Lemma pollForToken_loop_waits (base : Z) :
  forall (n a : nat),
    (forall k, (a <= k < a + n)%nat -> keeps_waiting this deviceCode world k) ->
    forall (fuel : nat) (sleeps : list Z),
      pollForToken_loop (n + fuel) this deviceCode world a
        (base + 5000 * Z.of_nat (slow_downs this deviceCode world a)) sleeps
      = pollForToken_loop fuel this deviceCode world (a + n)
          (base + 5000 * Z.of_nat (slow_downs this deviceCode world (a + n)))
          (sleeps ++ map (wait base) (seq a n)).
Proof.
  induction n as [|n IH]; intros a Hw fuel sleeps.
  - simpl. rewrite Nat.add_0_r, app_nil_r. reflexivity.
  - cbn [Nat.add pollForToken_loop].
    rewrite (poll_once_waiting base a (Hw a ltac:(lia))).
    unfold wait at 1.
    rewrite (IH (S a) (fun k Hk => Hw k ltac:(lia))).
    replace (S a + n)%nat with (a + S n)%nat by lia.
    cbn [seq map]. rewrite <- app_assoc. reflexivity.
Qed.

(** X21.  While the token endpoint answers [authorization_pending] or
    [slow_down], [pollForToken] keeps polling; the wait before each new poll
    is the interval plus 5 seconds for every [slow_down] received so far; and
    the first 2xx answer ends the call with its tokens. *)
Theorem polling_waits_then_returns
    (interval : option Z) (n fuel : nat) (r : PollResponse)
    (tokens : TokenResponse) :
  (forall k, (k < n)%nat -> keeps_waiting this deviceCode world k) ->
  world n (poll_request this deviceCode) = FetchResolves r ->
  poll_ok r = true ->
  poll_json_tokens r = Return tokens ->
  (n < fuel)%nat ->
  pollForToken fuel this world deviceCode interval
  = Some {| poll_result := Return tokens;
            poll_sleeps :=
              map (fun k =>
                     nullish interval 5 * 1000
                     + 5000 * Z.of_nat (slow_downs this deviceCode world (S k)))
                  (seq 0 n);
            poll_requests := S n |}.
Proof.
  intros Hw Hn Hok Hjson Hfuel. unfold pollForToken.
  replace fuel with (n + S (fuel - S n))%nat by lia.
  pose proof (pollForToken_loop_waits (nullish interval 5 * 1000) n 0
                (fun k Hk => Hw k ltac:(lia)) (S (fuel - S n)) []) as Hloop.
  cbn [slow_downs Z.of_nat] in Hloop.
  rewrite Z.mul_0_r, Z.add_0_r in Hloop. rewrite Hloop.
  cbn [Nat.add pollForToken_loop app].
  unfold poll_once. rewrite Hn, Hok, Hjson. reflexivity.
Qed.

(** X22.  [pollForToken] has no deadline of its own: as long as every poll
    is answered with [authorization_pending] or [slow_down], it is still
    polling after any number of requests. *)
Theorem polling_has_no_deadline (interval : option Z) :
  (forall k, keeps_waiting this deviceCode world k) ->
  forall fuel, pollForToken fuel this world deviceCode interval = None.
Proof.
  intros Hw fuel. unfold pollForToken.
  replace fuel with (fuel + 0)%nat by lia.
  pose proof (pollForToken_loop_waits (nullish interval 5 * 1000) fuel 0
                (fun k _ => Hw k) 0%nat []) as Hloop.
  cbn [slow_downs Z.of_nat] in Hloop.
  rewrite Z.mul_0_r, Z.add_0_r in Hloop. rewrite Hloop. reflexivity.
Qed.

(** X23.  Every other answer ends the polling at once, without a further
    request or sleep: a rejected fetch or an unreadable body is thrown as a
    connection error, [expired_token] as the authentication error "Device
    code has expired...", and a status that is neither 2xx nor 403 as an API
    error carrying that status. *)
Theorem polling_stops_on_errors
    (fuel n : nat) (intervalMs : Z) (sleeps : list Z) :
  (forall name message,
      world n (poll_request this deviceCode)
      = FetchFails (JsError name message) ->
      pollForToken_loop (S fuel) this deviceCode world n intervalMs sleeps
      = Some {| poll_result :=
                  Throw (YotoConnectionError
                           ("Token polling failed: "
                            ++ String_of_error (JsError name message)));
                poll_sleeps := sleeps; poll_requests := S n |})
  /\ (oauth_error_of (world n (poll_request this deviceCode))
      = Some "expired_token" ->
      pollForToken_loop (S fuel) this deviceCode world n intervalMs sleeps
      = Some {| poll_result :=
                  Throw (YotoAuthenticationError
                           "Device code has expired. Please restart the device login process."
                           None None None None);
                poll_sleeps := sleeps; poll_requests := S n |})
  /\ (forall r,
        world n (poll_request this deviceCode) = FetchResolves r ->
        poll_ok r = false -> poll_status r <> 403 ->
        pollForToken_loop (S fuel) this deviceCode world n intervalMs sleeps
        = Some {| poll_result :=
                    Throw (YotoAPIError
                             ("Token request failed: " ++ poll_statusText r)
                             (poll_status r) None None None None None);
                  poll_sleeps := sleeps; poll_requests := S n |})
  /\ (forall r name message,
        world n (poll_request this deviceCode) = FetchResolves r ->
        poll_ok r = false -> poll_status r = 403 ->
        poll_json_error r = Throw (JsError name message) ->
        pollForToken_loop (S fuel) this deviceCode world n intervalMs sleeps
        = Some {| poll_result :=
                    Throw (YotoConnectionError
                             ("Token polling failed: "
                              ++ String_of_error (JsError name message)));
                  poll_sleeps := sleeps; poll_requests := S n |}).
Proof.
  repeat apply conj.
  - intros name message Hw. cbn [pollForToken_loop]. rewrite Hw. reflexivity.
  - intros Hw. cbn [pollForToken_loop]. unfold oauth_error_of in Hw.
    unfold poll_once.
    destruct (world n (poll_request this deviceCode)) as [e|r];
      [discriminate|].
    destruct (poll_ok r); [discriminate|].
    destruct (poll_status r =? 403); [|discriminate].
    destruct (poll_json_error r) as [d|e]; [|discriminate].
    rewrite Hw. reflexivity.
  - intros r Hw Hok Hst. cbn [pollForToken_loop]. unfold poll_once.
    rewrite Hw, Hok. apply Z.eqb_neq in Hst. rewrite Hst. reflexivity.
  - intros r name message Hw Hok Hst Hjson. cbn [pollForToken_loop].
    unfold poll_once. rewrite Hw, Hok, Hst, Hjson. reflexivity.
Qed.

End Polling.

(** X24.  A device login that succeeds never hands on an interval or a
    lifetime of zero: a missing, zero or unreadable [interval] becomes 5 and
    such an [expires_in] becomes 300.  A login that fails throws an
    authentication or a connection error. *)
Theorem initiateDeviceLogin_outcomes
    (fetch : TokenRequest -> fetch_result DeviceCodeEndpointResponse)
    (this : YotoDeviceAuth) :
  (forall d, initiateDeviceLogin fetch this = Return d ->
             interval d <> 0 /\ expires_in d <> 0)
  /\ (forall e, initiateDeviceLogin fetch this = Throw e ->
                instanceof_YotoAuthenticationError e
                || instanceof_YotoConnectionError e = true).
Proof.
  assert (Hor : forall x d, d <> 0 -> or_number x d <> 0).
  { intros [[z|]|] d Hd; simpl; try exact Hd.
    destruct (z =? 0) eqn:E; [exact Hd | apply Z.eqb_neq; exact E]. }
  unfold initiateDeviceLogin.
  match goal with |- context [fetch ?r] => destruct (fetch r) as [e0|response] end.
  - split; intros x.
    + destruct (instanceof_YotoAuthenticationError e0); discriminate.
    + destruct (instanceof_YotoAuthenticationError e0) eqn:E;
        intros [= <-]; [rewrite E|]; reflexivity.
  - destruct (dc_ok response); simpl.
    + destruct (dc_json response) as [data|e0]; split; intros x.
      * intros [= <-]. simpl. split; apply Hor; discriminate.
      * discriminate.
      * destruct (instanceof_YotoAuthenticationError e0); discriminate.
      * destruct (instanceof_YotoAuthenticationError e0) eqn:E;
          intros [= <-]; [rewrite E|]; reflexivity.
    + split; intros x; [discriminate | intros [= <-]; reflexivity].
Qed.

(** [polling_waits_then_returns] when the user authorizes between the
    second and the third poll. *)
Lemma polling_waits_then_returns_witness :
  pollForToken 5 sample_device_auth pending_slow_down_tokens "device_123" None
  = Some {| poll_result := Return fresh_pair;
            poll_sleeps := [5000; 10000];
            poll_requests := 3 |}.
Proof.
  apply (polling_waits_then_returns sample_device_auth "device_123"
           pending_slow_down_tokens None 2 5
           {| poll_status := 200; poll_statusText := "OK";
              poll_json_tokens := Return fresh_pair;
              poll_json_error :=
                Return {| error_field := None;
                          error_description := None |} |} fresh_pair).
  - intros k Hk. destruct k as [|[|k]]; [left | right | lia]; reflexivity.
  - reflexivity.
  - reflexivity.
  - reflexivity.
  - lia.
Defined.

(** [polling_has_no_deadline] when the user never authorizes: still polling
    after a thousand requests. *)
Lemma polling_has_no_deadline_witness :
  pollForToken 1000 sample_device_auth always_pending "device_123" None = None.
Proof.
  apply (polling_has_no_deadline sample_device_auth "device_123"
           always_pending None).
  intros k. left. reflexivity.
Defined.

(** [polling_stops_on_errors] when the network is down. *)
Lemma polling_stops_on_errors_witness :
  pollForToken_loop 1 sample_device_auth "device_123" polling_offline 0 5000 []
  = Some {| poll_result :=
              Throw (YotoConnectionError
                       "Token polling failed: TypeError: fetch failed");
            poll_sleeps := []; poll_requests := 1 |}.
Proof.
  apply (proj1 (polling_stops_on_errors sample_device_auth "device_123"
                  polling_offline 0 0 5000 [])
           "TypeError" "fetch failed" eq_refl).
Defined.

(** [initiateDeviceLogin_outcomes] for an answer without [interval] and with
    an [expires_in] of 0. *)
Lemma initiateDeviceLogin_outcomes_witness :
  exists d,
    initiateDeviceLogin device_code_endpoint sample_device_auth = Return d
    /\ interval d <> 0 /\ expires_in d <> 0.
Proof.
  eexists. split; [reflexivity|].
  apply (proj1 (initiateDeviceLogin_outcomes device_code_endpoint
                  sample_device_auth) _ eq_refl).
Defined.

End DeviceFlowFacts.

(** ** PKCE helpers *)

Module PkceFacts.
Import JS Pkce Samples MoreSamples JSFacts.
Local Open Scope nat_scope.

Lemma append_nil_r (s : string) : s ++ "" = s.
Proof. induction s as [|c s IH]; simpl; [|rewrite IH]; reflexivity. Qed.

Lemma replace_all_app (c d : ascii) (a b : string) :
  replace_all c d (a ++ b) = replace_all c d a ++ replace_all c d b.
Proof. induction a as [|x a IH]; simpl; [|rewrite IH]; reflexivity. Qed.

Lemma remove_all_app (c : ascii) (a b : string) :
  remove_all c (a ++ b) = remove_all c a ++ remove_all c b.
Proof.
  induction a as [|x a IH]; simpl; [reflexivity|].
  rewrite IH. destruct (Ascii.eqb x c); reflexivity.
Qed.

Lemma replace_all_padding (c d : ascii) (n : nat) :
  Ascii.eqb "=" c = false -> replace_all c d (padding n) = padding n.
Proof.
  intros Hc. induction n as [|n IH]; cbn [padding replace_all];
    [|rewrite Hc, IH]; reflexivity.
Qed.

Lemma remove_all_padding (n : nat) : remove_all "=" (padding n) = "".
Proof.
  induction n as [|n IH]; cbn [padding remove_all]; [reflexivity|].
  rewrite Ascii.eqb_refl. exact IH.
Qed.

Lemma remove_all_free (c : ascii) (s : string) :
  free_of c s = true -> remove_all c s = s.
Proof.
  unfold free_of. induction s as [|x s IH]; simpl; intros Hs; [reflexivity|].
  apply andb_prop in Hs. destruct Hs as [Hx Hs].
  apply negb_true_iff in Hx. rewrite Hx, (IH Hs). reflexivity.
Qed.

Lemma replace_all_length (c d : ascii) (s : string) :
  String.length (replace_all c d s) = String.length s.
Proof. induction s as [|x s IH]; simpl; [|rewrite IH]; reflexivity. Qed.

Lemma replace_all_forall (f g : ascii -> bool) (c d : ascii) (s : string) :
  (forall x, f x = true -> g (if Ascii.eqb x c then d else x) = true) ->
  string_forall f s = true -> string_forall g (replace_all c d s) = true.
Proof.
  intros Hfg. induction s as [|x s IH]; simpl; intros Hs; [reflexivity|].
  apply andb_prop in Hs. destruct Hs as [Hx Hs].
  rewrite (Hfg x Hx), (IH Hs). reflexivity.
Qed.

Lemma slice_to_length (n : nat) (s : string) :
  n <= String.length s -> String.length (slice_to n s) = n.
Proof.
  revert s. induction n as [|n IH]; intros s Hn; [reflexivity|].
  destruct s as [|c s]; simpl in *; [lia|]. rewrite IH by lia. reflexivity.
Qed.

Lemma slice_to_forall (f : ascii -> bool) (n : nat) (s : string) :
  string_forall f s = true -> string_forall f (slice_to n s) = true.
Proof.
  revert s. induction n as [|n IH]; intros s Hs; [reflexivity|].
  destruct s as [|c s]; simpl in *; [reflexivity|].
  apply andb_prop in Hs. destruct Hs as [Hc Hs].
  rewrite Hc, (IH s Hs). reflexivity.
Qed.

Lemma plus_replaced (x : ascii) :
  is_base64_char x = true ->
  is_half_replaced (if Ascii.eqb x "+" then "-"%char else x) = true.
Proof.
  destruct x as [[|] [|] [|] [|] [|] [|] [|] [|]];
    vm_compute; intros E; congruence.
Qed.

Lemma slash_replaced (x : ascii) :
  is_half_replaced x = true ->
  is_url_safe (if Ascii.eqb x "/" then "_"%char else x) = true.
Proof.
  destruct x as [[|] [|] [|] [|] [|] [|] [|] [|]];
    vm_compute; intros E; congruence.
Qed.

Lemma url_safe_not_padding (x : ascii) :
  is_url_safe x = true -> negb (Ascii.eqb x "=") = true.
Proof.
  destruct x as [[|] [|] [|] [|] [|] [|] [|] [|]];
    vm_compute; intros E; congruence.
Qed.

Lemma base64_length_ge (n : nat) : n <= base64_length n.
Proof.
  assert (H3 : forall m, m <= base64_length m
                         /\ S m <= base64_length (S m)
                         /\ S (S m) <= base64_length (S (S m))).
  { induction m as [|m (IH0 & IH1 & IH2)]; [simpl; lia|].
    repeat split; try assumption.
    change (base64_length (S (S (S m)))) with (4 + base64_length m). lia. }
  apply H3.
Qed.

Section Encode.
Context `{PkceRuntime}.

(** What [base64UrlEncode] gives when [btoa] is base 64. *)
Lemma base64UrlEncode_body (bytes : string) :
  btoa_is_base64 ->
  String.length (base64UrlEncode bytes)
  = base64_length (String.length bytes)
  /\ string_forall is_url_safe (base64UrlEncode bytes) = true.
Proof.
  intros Hlaw. destruct (Hlaw bytes) as (body & Hb & Hlen & Hchars).
  unfold base64UrlEncode. rewrite Hb.
  rewrite !replace_all_app, remove_all_app.
  rewrite !replace_all_padding by reflexivity.
  rewrite remove_all_padding, append_nil_r.
  assert (Hsafe : string_forall is_url_safe
                    (replace_all "/" "_" (replace_all "+" "-" body)) = true).
  { apply (replace_all_forall is_half_replaced); [exact slash_replaced|].
    apply (replace_all_forall is_base64_char); [exact plus_replaced|].
    exact Hchars. }
  rewrite remove_all_free.
  - rewrite !replace_all_length. split; [exact Hlen | exact Hsafe].
  - unfold free_of.
    apply (string_forall_impl is_url_safe); [|exact Hsafe].
    exact url_safe_not_padding.
Qed.

(** X25.  When [btoa] is base 64, [base64UrlEncode] gives a string without
    padding, made of letters, digits, [-] and [_] only, with four characters
    for every three bytes (two or three for a rest of one or two bytes). *)
Theorem base64UrlEncode_is_url_safe (bytes : string) :
  btoa_is_base64 ->
  String.length (base64UrlEncode bytes)
  = base64_length (String.length bytes)
  /\ string_forall is_url_safe (base64UrlEncode bytes) = true
  /\ free_of "=" (base64UrlEncode bytes) = true
  /\ free_of "+" (base64UrlEncode bytes) = true
  /\ free_of "/" (base64UrlEncode bytes) = true.
Proof.
  intros Hlaw. destruct (base64UrlEncode_body bytes Hlaw) as (Hlen & Hsafe).
  split; [exact Hlen|]. split; [exact Hsafe|].
  unfold free_of.
  repeat split; apply (string_forall_impl is_url_safe); try exact Hsafe;
    intros x; destruct x as [[|] [|] [|] [|] [|] [|] [|] [|]];
    vm_compute; intros E; congruence.
Qed.

(** X26.  When [btoa] is base 64, [generateRandomString] turns [length]
    random bytes into exactly [length] characters, all of them letters,
    digits, [-] or [_]; so the PKCE verifier of [generateAuthUrl] has 128
    unreserved characters. *)
Theorem generateRandomString_shape (random : string) (length : nat) :
  btoa_is_base64 ->
  String.length random = length ->
  String.length (generateRandomString random length) = length
  /\ string_forall is_url_safe (generateRandomString random length) = true.
Proof.
  intros Hlaw Hlen. destruct (base64UrlEncode_body random Hlaw) as (Hl & Hs).
  unfold generateRandomString. split.
  - apply slice_to_length. rewrite Hl, Hlen. apply base64_length_ge.
  - apply slice_to_forall. exact Hs.
Qed.

(** X27.  When [btoa] is base 64 and the digest has 32 bytes, the PKCE
    challenge of any verifier has exactly 43 characters, all of them
    letters, digits, [-] or [_], and no padding. *)
Theorem generatePKCEChallenge_shape (verifier : string) :
  btoa_is_base64 ->
  sha256_is_32_bytes ->
  String.length (generatePKCEChallenge verifier) = 43
  /\ string_forall is_url_safe (generatePKCEChallenge verifier) = true.
Proof.
  intros Hlaw Hsha.
  destruct (base64UrlEncode_body (sha256 verifier) Hlaw) as (Hl & Hs).
  unfold generatePKCEChallenge. rewrite Hl, Hsha. split; [reflexivity|].
  exact Hs.
Qed.

End Encode.

Lemma base64_char_ok (n : nat) :
  n < 64 -> is_base64_char (base64_char n) = true.
Proof.
  intros Hn.
  assert (Hall : forallb (fun k => is_base64_char (base64_char k)) (seq 0 64)
                 = true) by (vm_compute; reflexivity).
  rewrite forallb_forall in Hall. apply Hall. apply in_seq. lia.
Qed.

Lemma sextet_bounds (a b : ascii) :
  nat_of_ascii a / 4 < 64
  /\ nat_of_ascii a mod 4 * 16 < 64
  /\ nat_of_ascii a mod 4 * 16 + nat_of_ascii b / 16 < 64
  /\ nat_of_ascii a mod 16 * 4 < 64
  /\ nat_of_ascii a mod 16 * 4 + nat_of_ascii b / 64 < 64
  /\ nat_of_ascii a mod 64 < 64.
Proof.
  pose proof (nat_ascii_bounded a) as Ha.
  pose proof (nat_ascii_bounded b) as Hb.
  pose proof (Nat.Div0.div_lt_upper_bound (nat_of_ascii a) 4 64
                ltac:(lia)).
  pose proof (Nat.Div0.div_lt_upper_bound (nat_of_ascii b) 16 16
                ltac:(lia)).
  pose proof (Nat.Div0.div_lt_upper_bound (nat_of_ascii b) 64 4
                ltac:(lia)).
  pose proof (Nat.mod_upper_bound (nat_of_ascii a) 4 ltac:(lia)).
  pose proof (Nat.mod_upper_bound (nat_of_ascii a) 16 ltac:(lia)).
  pose proof (Nat.mod_upper_bound (nat_of_ascii a) 64 ltac:(lia)).
  repeat split; lia.
Qed.


(** RFC 4648 base 64 has the shape assumed of [btoa]. *)
Lemma btoa_rfc4648_is_base64 : @btoa_is_base64 sample_pkce.
Proof.
  assert (Hn : forall n s, String.length s < n ->
               exists body,
                 btoa_rfc4648 s
                 = body ++ padding (padding_length (String.length s))
                 /\ String.length body = base64_length (String.length s)
                 /\ string_forall is_base64_char body = true).
  { induction n as [|n IH]; intros s Hs; [lia|].
    destruct s as [|a [|b [|c r]]].
    - exists "". repeat split.
    - eexists (String _ (String _ "")). split; [reflexivity|].
      split; [reflexivity|].
      cbn [string_forall].
      rewrite !base64_char_ok; [reflexivity | |];
        apply (sextet_bounds a a).
    - eexists (String _ (String _ (String _ ""))). split; [reflexivity|].
      split; [reflexivity|].
      cbn [string_forall].
      rewrite !base64_char_ok; [reflexivity | | |];
        first [apply (sextet_bounds a b) | apply (sextet_bounds b b)].
    - destruct (IH r ltac:(simpl in Hs; lia)) as (body & Hb & Hlen & Hch).
      eexists (String _ (String _ (String _ (String _ body)))).
      split; [|split].
      + cbn [btoa_rfc4648 String.length padding_length append].
        rewrite Hb. reflexivity.
      + cbn [String.length base64_length]. rewrite Hlen. reflexivity.
      + cbn [string_forall]. rewrite Hch.
        rewrite !base64_char_ok; [reflexivity | | | |];
          first [apply (sextet_bounds a b) | apply (sextet_bounds b c)
                | apply (sextet_bounds c c)]. }
  intros s. apply (Hn (S (String.length s))). lia.
Qed.

Lemma sample_sha256_is_32_bytes : @sha256_is_32_bytes sample_pkce.
Proof. intros s. reflexivity. Qed.

(** [base64UrlEncode_is_url_safe] for three bytes whose base 64 has a [+]
    and a [/]. *)
Lemma base64UrlEncode_is_url_safe_witness :
  String.length (@base64UrlEncode sample_pkce "~~?") = 4
  /\ string_forall is_url_safe (@base64UrlEncode sample_pkce "~~?") = true.
Proof.
  pose proof (@base64UrlEncode_is_url_safe sample_pkce "~~?"
                btoa_rfc4648_is_base64) as (Hl & Hs & _).
  split; [exact Hl | exact Hs].
Defined.

(** [generateRandomString_shape] for sixteen bytes. *)
Lemma generateRandomString_shape_witness :
  String.length (@generateRandomString sample_pkce "0123456789abcdef" 16) = 16
  /\ string_forall is_url_safe
       (@generateRandomString sample_pkce "0123456789abcdef" 16) = true.
Proof.
  apply (@generateRandomString_shape sample_pkce "0123456789abcdef" 16
           btoa_rfc4648_is_base64 eq_refl).
Defined.

(** [generatePKCEChallenge_shape] for a short verifier. *)
Lemma generatePKCEChallenge_shape_witness :
  String.length (@generatePKCEChallenge sample_pkce "verifier") = 43
  /\ string_forall is_url_safe (@generatePKCEChallenge sample_pkce "verifier")
     = true.
Proof.
  apply (@generatePKCEChallenge_shape sample_pkce "verifier"
           btoa_rfc4648_is_base64 sample_sha256_is_32_bytes).
Defined.

End PkceFacts.

(** ** The client and a resource *)

Module ClientFacts.
Import JS Errors Auth Http Client Samples MoreSamples.

(** X28.  A [Yoto] client is built exactly when one of [accessToken] and
    [auth] is given, an empty access token counting as none: with a token
    alone the client authenticates with a static provider holding that
    token, with [auth] alone it uses that provider, and with both or neither
    the constructor throws. *)
Theorem new_Yoto_needs_exactly_one_credential
    (P : Type) (config : YotoOptions P) :
  ((exists client, new_Yoto config = Return client)
   <-> xorb (has_token config) (has_auth config) = true)
  /\ (forall client,
        new_Yoto config = Return client ->
        authProvider client
        = match yo_auth config with
          | Some auth => inl auth
          | None => inr {| accessToken := nullish (yo_accessToken config) "" |}
          end
        /\ maxRetries client
           = or_number (yo_maxRetries config) DEFAULT_MAX_RETRIES)
  /\ (has_token config = true -> has_auth config = true ->
      new_Yoto config
      = Throw (JsError "Error"
                 "Cannot provide both accessToken and auth. Use one or the other.")).
Proof.
  unfold new_Yoto.
  destruct (has_token config), (has_auth config); cbn [negb andb xorb].
  - split; [split; [intros [c Hc]; discriminate | discriminate]|].
    split; [discriminate | reflexivity].
  - split; [split; [reflexivity | intros _; eexists; reflexivity]|].
    split; [intros client [= <-]; split; reflexivity | discriminate].
  - split; [split; [reflexivity | intros _; eexists; reflexivity]|].
    split; [intros client [= <-]; split; reflexivity | discriminate].
  - split; [split; [intros [c Hc]; discriminate | discriminate]|].
    split; [discriminate | discriminate].
Qed.

(** [new_Yoto_needs_exactly_one_credential] for an access token alone. *)
Lemma new_Yoto_needs_exactly_one_credential_witness :
  exists client,
    @new_Yoto RefreshableAuthProvider
      {| yo_accessToken := Some "your_access_token"; yo_auth := None;
         yo_baseUrl := None; yo_timeout := None; yo_maxRetries := None |}
    = Return client.
Proof.
  apply (proj2 (proj1 (new_Yoto_needs_exactly_one_credential
                         RefreshableAuthProvider
                         {| yo_accessToken := Some "your_access_token";
                            yo_auth := None; yo_baseUrl := None;
                            yo_timeout := None; yo_maxRetries := None |}))).
  reflexivity.
Defined.

Section Family.
Context {P : Type} `{AuthProvider P} `{UrlRuntime}.

(** X29.  [getImage] sends the one request of [listImages] and looks the
    image up in its answer: it returns the first image of the list whose
    [imageId] is the one asked for, and throws "Image not found" when the
    list has none; it never returns an image with another id. *)
Theorem getImage_finds_the_image
    (client : HttpClient P) (id : string)
    (world : nat -> AttemptWorld ImagesResponse)
    (run0 : Run P ImagesResponse) (response : ImagesResponse) :
  request client "/media/family/images"
    {| opt_method := Some GET; opt_query := None |} world = Some run0 ->
  result run0 = Return response ->
  exists run,
    getImage client id world = Some run
    /\ trace run = trace run0
    /\ provider run = provider run0
    /\ ((exists image before after,
           result run = Return image
           /\ imageId image = id
           /\ images response = (before ++ image :: after)%list
           /\ forall other, In other before -> imageId other <> id)
        \/ (result run = Throw (JsError "Error" ("Image not found: " ++ id))
            /\ forall other, In other (images response) ->
                             imageId other <> id)).
Proof.
  intros Hreq Hres. unfold getImage, listImages, resource_get, then_.
  rewrite Hreq. cbn [result trace provider]. rewrite Hres.
  eexists. split; [reflexivity|]. cbn [result trace provider].
  split; [reflexivity|]. split; [reflexivity|].
  induction (images response) as [|img imgs IH]; simpl.
  - right. split; [reflexivity | intros other []].
  - destruct (String.eqb (imageId img) id) eqn:E.
    + left. exists img, [], imgs. apply String.eqb_eq in E.
      repeat split; [exact E | intros other []].
    + apply String.eqb_neq in E.
      destruct IH as [(image & before & after & Hr & Hid & Hl & Hb)
                     | (Hr & Hnone)].
      * left. exists image, (img :: before), after.
        repeat split; [exact Hr | exact Hid | rewrite Hl; reflexivity |].
        intros other [<- | Hin]; [exact E | apply Hb; exact Hin].
      * right. split; [exact Hr|].
        intros other [<- | Hin]; [exact E | apply Hnone; exact Hin].
Qed.

End Family.

(** [getImage_finds_the_image] for the second image of a list of two. *)
Lemma getImage_finds_the_image_witness :
  exists run,
    @getImage StaticTokenProvider _ sample_url
      (new_HttpClient sample_provider default_config) "img_b" images_world
    = Some run
    /\ result run = Return image_b.
Proof.
  edestruct (@getImage_finds_the_image StaticTokenProvider _ sample_url
               (new_HttpClient sample_provider default_config) "img_b"
               images_world)
    as (run & Hrun & _ & _ & _); [vm_compute; reflexivity | reflexivity |].
  exists run. split; [exact Hrun|].
  vm_compute in Hrun. injection Hrun as <-. reflexivity.
Defined.

End ClientFacts.
